(** * A feedforward network written with numpy, embedded in Rocq

    The development follows [simple_neural_network_iris_example.ipynb]:
    the class [NeuralNetwork] with its methods [relu], [relu_derivative],
    [softmax], [compute_loss], [forward], [backward], [update_parameters],
    [train] and [predict].

    - The numbers of the notebook are float64 values.  The code is embedded
      over an arbitrary carrier [F] with the operations the notebook uses
      (class [Scalar]); the structural theorems hold for every such carrier.
      Two carriers are given.  [float64_scalar] is IEEE 754 binary64, with
      infinities, NaN, signed zeros and correctly rounded operations: the
      runs on which float64 overflows are computed on it.  [R_scalar] is
      the real numbers, that is exact arithmetic: it carries statements
      that the float64 code meets up to rounding, with the hypotheses (a
      batch of at least one row, bounded magnitudes) that this needs.
    - A 2-D numpy array is a record with its shape and its rows.
    - A method is a function from the object's state to an optional pair of
      a result and the new state; [None] stands for a raised exception
      (a shape error, a reduction over an empty axis, a missing attribute). *)

From Stdlib Require Import List Arith Bool ZArith Lia Reals Lra.
From Stdlib Require SpecFloat.
Import ListNotations.

Set Implicit Arguments.

(** ** Scalars *)

Class Scalar (F : Type) : Type := {
  f0 : F;                       (* 0.0 *)
  f1 : F;                       (* 1.0 *)
  fadd : F -> F -> F;
  fsub : F -> F -> F;
  fmul : F -> F -> F;
  fdiv : F -> F -> F;
  fneg : F -> F;
  fmax : F -> F -> F;           (* np.maximum on two scalars *)
  fexp : F -> F;                (* np.exp *)
  flog : F -> F;                (* np.log *)
  fgt : F -> F -> bool;         (* x > y *)
  of_nat : nat -> F;            (* a Python int used in float arithmetic *)
  lit_1e_9 : F;                 (* the literal 1e-9 *)
  lit_0_01 : F                  (* the literal 0.01 *)
}.

(** ** Indexed folds: sums, maxima and argmax over [0 .. n-1] *)

Section Folds.
Context {F : Type} {SF : Scalar F}.

(** Sum of [f 0 .. f (n-1)], accumulated from the left starting at 0.
    numpy does not fix the order in which it adds; the order matters for
    floats only, and the model adds in index order. *)
Definition bigsum (n : nat) (f : nat -> F) : F :=
  fold_left (fun acc i => fadd acc (f i)) (seq 0 n) f0.

(** Maximum of [f 0 .. f (n-1)] for [n > 0], accumulated from the left. *)
Definition bigmax (n : nat) (f : nat -> F) : F :=
  fold_left (fun acc i => fmax acc (f i)) (seq 1 (n - 1)) (f 0).

(** First index of a maximal element of [f 0 .. f (n-1)] for [n > 0]: the
    candidate is replaced only by a strictly greater element.  numpy takes
    NaN for a maximum: on a row that mixes NaN with numbers it returns the
    position of the first NaN, which this fold does not follow; the two
    agree on the rows that [>] orders totally, rows of NaN only included
    ([totally_ordered] below). *)
Definition argmax_upto (n : nat) (f : nat -> F) : nat :=
  fold_left (fun best i => if fgt (f i) (f best) then i else best)
            (seq 1 (n - 1)) 0.

End Folds.

(** ** Two-dimensional arrays *)

Section NdArray.
Context {F : Type} {SF : Scalar F}.

Record ndarray : Type := mk_ndarray {
  nrows : nat;
  ncols : nat;
  rows : list (list F)
}.

Definition get (A : ndarray) (i j : nat) : F :=
  nth j (nth i (rows A) []) f0.

Definition tabulate (m k : nat) (f : nat -> nat -> F) : ndarray :=
  mk_ndarray m k (map (fun i => map (fun j => f i j) (seq 0 k)) (seq 0 m)).

(** The rows agree with the declared shape. *)
Definition wf (A : ndarray) : Prop :=
  length (rows A) = nrows A /\
  Forall (fun r => length r = ncols A) (rows A).

Definition has_shape (A : ndarray) (m k : nat) : Prop :=
  wf A /\ nrows A = m /\ ncols A = k.

(** *** numpy operations used by the notebook *)

(** Elementwise function of one array. *)
Definition nd_map (f : F -> F) (A : ndarray) : ndarray :=
  tabulate (nrows A) (ncols A) (fun i j => f (get A i j)).

(** Broadcasting of one axis: equal lengths, or one of them is 1. *)
Definition bdim (a b : nat) : option nat :=
  if a =? b then Some a
  else if a =? 1 then Some b
  else if b =? 1 then Some a
  else None.

(** Index into an axis of length [d] that may have been stretched. *)
Definition bidx (d i : nat) : nat := if d =? 1 then 0 else i.

(** Elementwise binary operation with broadcasting; a shape mismatch is
    numpy's ValueError. *)
Definition broadcast2 (f : F -> F -> F) (A B : ndarray) : option ndarray :=
  match bdim (nrows A) (nrows B), bdim (ncols A) (ncols B) with
  | Some m, Some k =>
      Some (tabulate m k (fun i j =>
              f (get A (bidx (nrows A) i) (bidx (ncols A) j))
                (get B (bidx (nrows B) i) (bidx (ncols B) j))))
  | _, _ => None
  end.

(** In-place [A -= B]: the broadcast result has to have the shape of [A]. *)
Definition isub (A B : ndarray) : option ndarray :=
  match broadcast2 fsub A B with
  | Some C =>
      if (nrows C =? nrows A) && (ncols C =? ncols A) then Some C else None
  | None => None
  end.

(** [np.dot] of two 2-D arrays. *)
Definition np_dot (A B : ndarray) : option ndarray :=
  if ncols A =? nrows B then
    Some (tabulate (nrows A) (ncols B) (fun i j =>
            bigsum (ncols A) (fun l => fmul (get A i l) (get B l j))))
  else None.

(** [A.T] *)
Definition np_T (A : ndarray) : ndarray :=
  tabulate (ncols A) (nrows A) (fun i j => get A j i).

(** [np.max(A, axis=1, keepdims=True)]: fails on an empty axis. *)
Definition np_max_axis1 (A : ndarray) : option ndarray :=
  if ncols A =? 0 then None
  else Some (tabulate (nrows A) 1 (fun i _ => bigmax (ncols A) (get A i))).

(** [np.sum(A, axis=1, keepdims=True)] *)
Definition np_sum_axis1 (A : ndarray) : ndarray :=
  tabulate (nrows A) 1 (fun i _ => bigsum (ncols A) (get A i)).

(** [np.sum(A, axis=0, keepdims=True)] *)
Definition np_sum_axis0 (A : ndarray) : ndarray :=
  tabulate 1 (ncols A) (fun _ j => bigsum (nrows A) (fun i => get A i j)).

(** [np.sum(A)]: all entries, row after row. *)
Definition np_sum (A : ndarray) : F :=
  bigsum (nrows A) (fun i => bigsum (ncols A) (get A i)).

(** [np.argmax(A, axis=1)]: a 1-D array of indices; fails on an empty
    axis. *)
Definition np_argmax_axis1 (A : ndarray) : option (list nat) :=
  if ncols A =? 0 then None
  else Some (map (fun i => argmax_upto (ncols A) (get A i))
                 (seq 0 (nrows A))).

(** [np.zeros((m, k))] *)
Definition np_zeros (m k : nat) : ndarray := tabulate m k (fun _ _ => f0).
End NdArray.

Arguments ndarray F : clear implicits.

(** ** Methods: state and exceptions *)

(** A computation over a state [S] that returns an [A] or raises. *)
Definition SE (S A : Type) : Type := S -> option (A * S).

Definition ret {S A : Type} (a : A) : SE S A := fun s => Some (a, s).

Definition bind {S A B : Type} (c : SE S A) (k : A -> SE S B) : SE S B :=
  fun s => match c s with
           | Some (a, s') => k a s'
           | None => None
           end.

(** A pure, fallible step (a numpy call that may raise). *)
Definition lift {S A : Type} (o : option A) : SE S A :=
  fun s => match o with
           | Some a => Some (a, s)
           | None => None
           end.

Definition gets {S A : Type} (f : S -> A) : SE S A := fun s => Some (f s, s).

Definition modify {S : Type} (f : S -> S) : SE S unit := fun s => Some (tt, f s).

(** Reading an attribute that exists only after it was first assigned. *)
Definition attr {S A : Type} (f : S -> option A) : SE S A :=
  fun s => match f s with
           | Some a => Some (a, s)
           | None => None
           end.

Declare Scope se_scope.
Delimit Scope se_scope with se.
Notation "x <- c ;; k" := (bind c (fun x => k))
  (at level 61, c at next level, right associativity) : se_scope.
Notation "c ;; k" := (bind c (fun _ => k))
  (at level 61, right associativity) : se_scope.

(** [for epoch in l: acc = body epoch acc] *)
Fixpoint for_each {S A : Type} (l : list nat) (body : nat -> A -> SE S A)
         (acc : A) : SE S A :=
  match l with
  | [] => ret acc
  | e :: l' => bind (body e acc) (for_each l' body)
  end.

(** [range(0, stop, step)] *)
Definition range_step (stop step : nat) : list nat :=
  map (fun q => q * step) (seq 0 ((stop + (step - 1)) / step)).

(** [l[::step]] *)
Definition slice_step {A : Type} (step : nat) (l : list A) : list A :=
  map snd (filter (fun p => fst p mod step =? 0)
                  (combine (seq 0 (length l)) l)).

(** ** The class [NeuralNetwork] *)

Section Network.
Context {F : Type} {SF : Scalar F}.

Local Open Scope se_scope.

(** The attributes of an instance.  The last four are assigned by
    [forward] only: before its first call they do not exist. *)
Record NeuralNetwork : Type := mk_net {
  weights_input_to_hidden : ndarray F;
  weights_hidden_to_output : ndarray F;
  bias_hidden : ndarray F;
  bias_output : ndarray F;
  learning_rate : F;
  z_hidden : option (ndarray F);
  a_hidden : option (ndarray F);
  z_output : option (ndarray F);
  a_output : option (ndarray F)
}.

Definition method (A : Type) : Type := SE NeuralNetwork A.

Definition set_weights_input_to_hidden (v : ndarray F) (self : NeuralNetwork) :=
  mk_net v (weights_hidden_to_output self) (bias_hidden self)
         (bias_output self) (learning_rate self)
         (z_hidden self) (a_hidden self) (z_output self) (a_output self).

Definition set_weights_hidden_to_output (v : ndarray F) (self : NeuralNetwork) :=
  mk_net (weights_input_to_hidden self) v (bias_hidden self)
         (bias_output self) (learning_rate self)
         (z_hidden self) (a_hidden self) (z_output self) (a_output self).

Definition set_bias_hidden (v : ndarray F) (self : NeuralNetwork) :=
  mk_net (weights_input_to_hidden self) (weights_hidden_to_output self) v
         (bias_output self) (learning_rate self)
         (z_hidden self) (a_hidden self) (z_output self) (a_output self).

Definition set_bias_output (v : ndarray F) (self : NeuralNetwork) :=
  mk_net (weights_input_to_hidden self) (weights_hidden_to_output self)
         (bias_hidden self) v (learning_rate self)
         (z_hidden self) (a_hidden self) (z_output self) (a_output self).

Definition set_z_hidden (v : ndarray F) (self : NeuralNetwork) :=
  mk_net (weights_input_to_hidden self) (weights_hidden_to_output self)
         (bias_hidden self) (bias_output self) (learning_rate self)
         (Some v) (a_hidden self) (z_output self) (a_output self).

Definition set_a_hidden (v : ndarray F) (self : NeuralNetwork) :=
  mk_net (weights_input_to_hidden self) (weights_hidden_to_output self)
         (bias_hidden self) (bias_output self) (learning_rate self)
         (z_hidden self) (Some v) (z_output self) (a_output self).

Definition set_z_output (v : ndarray F) (self : NeuralNetwork) :=
  mk_net (weights_input_to_hidden self) (weights_hidden_to_output self)
         (bias_hidden self) (bias_output self) (learning_rate self)
         (z_hidden self) (a_hidden self) (Some v) (a_output self).

Definition set_a_output (v : ndarray F) (self : NeuralNetwork) :=
  mk_net (weights_input_to_hidden self) (weights_hidden_to_output self)
         (bias_hidden self) (bias_output self) (learning_rate self)
         (z_hidden self) (a_hidden self) (z_output self) (Some v).

(** [__init__]: [rand_ih] and [rand_ho] are the draws of the two calls of
    [np.random.rand]; [lr] is [None] when the default 0.01 is used. *)
Definition init (input_size hidden_size output_size : nat) (lr : option F)
           (rand_ih rand_ho : nat -> nat -> F) : NeuralNetwork :=
  mk_net
    (nd_map (fmul lit_0_01) (tabulate input_size hidden_size rand_ih))
    (nd_map (fmul lit_0_01) (tabulate hidden_size output_size rand_ho))
    (np_zeros 1 hidden_size)
    (np_zeros 1 output_size)
    (match lr with Some r => r | None => lit_0_01 end)
    None None None None.

(** [relu]: [np.maximum(0, x)] *)
Definition relu (x : ndarray F) : ndarray F := nd_map (fmax f0) x.

(** [relu_derivative]: [(x > 0).astype(float)] *)
Definition relu_derivative (x : ndarray F) : ndarray F :=
  nd_map (fun v => if fgt v f0 then f1 else f0) x.

(** [softmax] *)
Definition softmax (x : ndarray F) : option (ndarray F) :=
  match np_max_axis1 x with
  | None => None
  | Some mx =>
      match broadcast2 fsub x mx with
      | None => None
      | Some d =>
          let exp_x := nd_map fexp d in
          broadcast2 fdiv exp_x (np_sum_axis1 exp_x)
      end
  end.

(** [compute_loss] *)
Definition compute_loss (y_true y_pred : ndarray F) : option F :=
  let m := nrows y_true in
  match broadcast2 fmul y_true
          (nd_map flog (nd_map (fun v => fadd v lit_1e_9) y_pred)) with
  | None => None
  | Some p => Some (fdiv (fneg (np_sum p)) (of_nat m))
  end.

(** [forward] *)
Definition forward (x : ndarray F) : method (ndarray F) :=
  w_ih <- gets weights_input_to_hidden ;;
  xw <- lift (np_dot x w_ih) ;;
  b_h <- gets bias_hidden ;;
  zh <- lift (broadcast2 fadd xw b_h) ;;
  modify (set_z_hidden zh) ;;
  zh' <- attr z_hidden ;;
  modify (set_a_hidden (relu zh')) ;;
  ah <- attr a_hidden ;;
  w_ho <- gets weights_hidden_to_output ;;
  aw <- lift (np_dot ah w_ho) ;;
  b_o <- gets bias_output ;;
  zo <- lift (broadcast2 fadd aw b_o) ;;
  modify (set_z_output zo) ;;
  zo' <- attr z_output ;;
  ao <- lift (softmax zo') ;;
  modify (set_a_output ao) ;;
  attr a_output.

(** The local variables of [backward]. *)
Record backward_locals : Type := mk_locals {
  dz_output : ndarray F;
  dw_hidden_to_output : ndarray F;
  db_output : ndarray F;
  da_hidden : ndarray F;
  dz_hidden : ndarray F;
  dw_input_to_hidden : ndarray F;
  db_hidden : ndarray F
}.

(** Array divided by the Python int [m]. *)
Definition div_int (A : ndarray F) (m : nat) : ndarray F :=
  nd_map (fun v => fdiv v (of_nat m)) A.

(** The body of [backward] up to its [return]. *)
Definition backward_body (x y_true : ndarray F) : method backward_locals :=
  let m := nrows y_true in
  ao <- attr a_output ;;
  dz_o <- lift (broadcast2 fsub ao y_true) ;;
  ah <- attr a_hidden ;;
  ahdz <- lift (np_dot (np_T ah) dz_o) ;;
  let dw_ho := div_int ahdz m in
  let db_o := div_int (np_sum_axis0 dz_o) m in
  w_ho <- gets weights_hidden_to_output ;;
  da_h <- lift (np_dot dz_o (np_T w_ho)) ;;
  zh <- attr z_hidden ;;
  dz_h <- lift (broadcast2 fmul da_h (relu_derivative zh)) ;;
  xdz <- lift (np_dot (np_T x) dz_h) ;;
  let dw_ih := div_int xdz m in
  let db_h := div_int (np_sum_axis0 dz_h) m in
  ret (mk_locals dz_o dw_ho db_o da_h dz_h dw_ih db_h).

(** [backward] *)
Definition backward (x y_true : ndarray F)
  : method (ndarray F * ndarray F * ndarray F * ndarray F) :=
  l <- backward_body x y_true ;;
  ret (dw_input_to_hidden l, db_hidden l, dw_hidden_to_output l, db_output l).

(** [update_parameters] *)
Definition update_parameters (dw_ih db_h dw_ho db_o : ndarray F) : method unit :=
  lr <- gets learning_rate ;;
  w_ih <- gets weights_input_to_hidden ;;
  w_ih' <- lift (isub w_ih (nd_map (fmul lr) dw_ih)) ;;
  modify (set_weights_input_to_hidden w_ih') ;;
  lr <- gets learning_rate ;;
  b_h <- gets bias_hidden ;;
  b_h' <- lift (isub b_h (nd_map (fmul lr) db_h)) ;;
  modify (set_bias_hidden b_h') ;;
  lr <- gets learning_rate ;;
  w_ho <- gets weights_hidden_to_output ;;
  w_ho' <- lift (isub w_ho (nd_map (fmul lr) dw_ho)) ;;
  modify (set_weights_hidden_to_output w_ho') ;;
  lr <- gets learning_rate ;;
  b_o <- gets bias_output ;;
  b_o' <- lift (isub b_o (nd_map (fmul lr) db_o)) ;;
  modify (set_bias_output b_o').

(** What [train] shows to the outside: the lines it prints and the plot
    it draws at the end. *)
Inductive event : Type :=
| Print (epoch : nat) (loss : F)
| Plot (xs : list nat) (ys : list F).

(** One iteration of the loop of [train]; the accumulator holds
    [loss_history] and the events emitted so far. *)
Definition train_epoch (x y_true : ndarray F) (epoch : nat)
           (acc : list F * list event) : method (list F * list event) :=
  let '(loss_history, out) := acc in
  y_pred <- forward x ;;
  loss <- lift (compute_loss y_true y_pred) ;;
  let loss_history := loss_history ++ [loss] in
  g <- backward x y_true ;;
  let '(dw_ih, db_h, dw_ho, db_o) := g in
  update_parameters dw_ih db_h dw_ho db_o ;;
  let out := if epoch mod 100 =? 0 then out ++ [Print epoch loss] else out in
  ret (loss_history, out).

(** [train]: the method returns nothing; the model returns the final
    [loss_history] and the emitted events. *)
Definition train (x y_true : ndarray F) (epochs : nat)
  : method (list F * list event) :=
  r <- for_each (seq 0 epochs) (train_epoch x y_true) ([], []) ;;
  let '(loss_history, out) := r in
  ret (loss_history,
       out ++ [Plot (range_step epochs 100) (slice_step 100 loss_history)]).

(** [predict] *)
Definition predict (x : ndarray F) : method (list nat) :=
  y_pred <- forward x ;;
  lift (np_argmax_axis1 y_pred).
End Network.

Arguments NeuralNetwork F : clear implicits.
Arguments backward_locals F : clear implicits.
Arguments event F : clear implicits.

(** ** The formulas of the specification, entry by entry

    A mathematical matrix is its entry function; [get A] is the matrix of
    the array [A] and [tabulate m k f] the array of the [m] times [k]
    matrix [f]. *)

Section Formulas.
Context {F : Type} {SF : Scalar F}.

Definition mat : Type := nat -> nat -> F.

(** The product of an [_ x n] and an [n x _] matrix. *)
Definition matmul (n : nat) (A B : mat) : mat :=
  fun i j => bigsum n (fun l => fmul (A i l) (B l j)).

(** The transpose. *)
Definition transp (A : mat) : mat := fun i j => A j i.

(** The sum of each column of an [m x _] matrix. *)
Definition column_sum (m : nat) (A : mat) : nat -> F :=
  fun j => bigsum m (fun i => A i j).

(** X.W + b, the bias row [b] added to every row. *)
Definition affine (n : nat) (X W : mat) (b : nat -> F) : mat :=
  fun i j => fadd (matmul n X W i j) (b j).

(** ReLU: max(0, x), elementwise. *)
Definition relu_mat (Z : mat) : mat := fun i j => fmax f0 (Z i j).

(** ReLU': 1 if x > 0 else 0. *)
Definition relu' (x : F) : F := if fgt x f0 then f1 else f0.

(** Row-wise softmax of an [_ x k] matrix in the stable form: the maximum
    of the row is subtracted before exponentiating, and the result is
    divided by the sum of the row. *)
Definition softmax_mat (k : nat) (Z : mat) : mat :=
  fun i j =>
    let mx := bigmax k (Z i) in
    fdiv (fexp (fsub (Z i j) mx))
         (bigsum k (fun c => fexp (fsub (Z i c) mx))).

(** The forward pass for an input with [n] features, [h] hidden units and
    [k] classes. *)
Definition hidden_pre (n : nat) (X W_ih b_h : ndarray F) : mat :=
  affine n (get X) (get W_ih) (get b_h 0).

Definition hidden_act (n : nat) (X W_ih b_h : ndarray F) : mat :=
  relu_mat (hidden_pre n X W_ih b_h).

Definition output_pre (n h : nat) (X W_ih b_h W_ho b_o : ndarray F) : mat :=
  affine h (hidden_act n X W_ih b_h) (get W_ho) (get b_o 0).

Definition output_act (n h k : nat) (X W_ih b_h W_ho b_o : ndarray F) : mat :=
  softmax_mat k (output_pre n h X W_ih b_h W_ho b_o).

(** The gradients of the backward pass for a batch of [m] rows, from the
    prediction [Y_pred], the hidden activation [A_hidden] and the hidden
    pre-activation [Z_hidden]. *)
Definition dZ_out (Y_pred Y_true : mat) : mat :=
  fun i c => fsub (Y_pred i c) (Y_true i c).

Definition dW_ho (m : nat) (A_hidden Y_pred Y_true : mat) : mat :=
  fun j c => fdiv (matmul m (transp A_hidden) (dZ_out Y_pred Y_true) j c)
                  (of_nat m).

Definition db_o (m : nat) (Y_pred Y_true : mat) : nat -> F :=
  fun c => fdiv (column_sum m (dZ_out Y_pred Y_true) c) (of_nat m).

Definition dA_hidden (k : nat) (W_ho Y_pred Y_true : mat) : mat :=
  matmul k (dZ_out Y_pred Y_true) (transp W_ho).

Definition dZ_hidden (k : nat) (W_ho Z_hidden Y_pred Y_true : mat) : mat :=
  fun i j => fmul (dA_hidden k W_ho Y_pred Y_true i j) (relu' (Z_hidden i j)).

Definition dW_ih (m k : nat) (X W_ho Z_hidden Y_pred Y_true : mat) : mat :=
  fun l j =>
    fdiv (matmul m (transp X) (dZ_hidden k W_ho Z_hidden Y_pred Y_true) l j)
         (of_nat m).

Definition db_h (m k : nat) (W_ho Z_hidden Y_pred Y_true : mat) : nat -> F :=
  fun j => fdiv (column_sum m (dZ_hidden k W_ho Z_hidden Y_pred Y_true) j)
                (of_nat m).

(** A row vector as an array of shape [(1, k)]. *)
Definition row_array (k : nat) (v : nat -> F) : ndarray F :=
  tabulate 1 k (fun _ j => v j).

(** The stored parameters have the shapes of a network with [n] inputs,
    [h] hidden units and [k] outputs. *)
Definition params_shaped (net : NeuralNetwork F) (n h k : nat) : Prop :=
  has_shape (weights_input_to_hidden net) n h /\
  has_shape (weights_hidden_to_output net) h k /\
  has_shape (bias_hidden net) 1 h /\
  has_shape (bias_output net) 1 k.

(** The state [net] with the four cached intermediates replaced. *)
Definition with_cache (net : NeuralNetwork F) (zh ah zo ao : ndarray F)
  : NeuralNetwork F :=
  mk_net (weights_input_to_hidden net) (weights_hidden_to_output net)
         (bias_hidden net) (bias_output net) (learning_rate net)
         (Some zh) (Some ah) (Some zo) (Some ao).

(** The state a forward pass leaves behind, with the specification's
    matrices in the cache. *)
Definition after_forward (net : NeuralNetwork F) (x : ndarray F)
           (m n h k : nat) : NeuralNetwork F :=
  let W_ih := weights_input_to_hidden net in
  let W_ho := weights_hidden_to_output net in
  let b_h := bias_hidden net in
  let b_o := bias_output net in
  with_cache net
    (tabulate m h (hidden_pre n x W_ih b_h))
    (tabulate m h (hidden_act n x W_ih b_h))
    (tabulate m k (output_pre n h x W_ih b_h W_ho b_o))
    (tabulate m k (output_act n h k x W_ih b_h W_ho b_o)).

(** The four arrays [forward] computes, as a function of the input and of
    the stored weights and biases only. *)
Definition forward_values (net : NeuralNetwork F) (x : ndarray F)
  : option (ndarray F * ndarray F * ndarray F * ndarray F) :=
  match np_dot x (weights_input_to_hidden net) with
  | None => None
  | Some xw =>
      match broadcast2 fadd xw (bias_hidden net) with
      | None => None
      | Some zh =>
          match np_dot (relu zh) (weights_hidden_to_output net) with
          | None => None
          | Some aw =>
              match broadcast2 fadd aw (bias_output net) with
              | None => None
              | Some zo =>
                  match softmax zo with
                  | None => None
                  | Some ao => Some (zh, relu zh, zo, ao)
                  end
              end
          end
      end
  end.

(** One gradient-descent step on a parameter:
    parameter - learning_rate * gradient. *)
Definition descend (lr : F) (P G : ndarray F) : ndarray F :=
  tabulate (nrows P) (ncols P)
           (fun i j => fsub (get P i j) (fmul lr (get G i j))).

(** The state with every parameter moved against its gradient. *)
Definition updated (net : NeuralNetwork F) (dw_ih db_h dw_ho db_o : ndarray F)
  : NeuralNetwork F :=
  let lr := learning_rate net in
  mk_net (descend lr (weights_input_to_hidden net) dw_ih)
         (descend lr (weights_hidden_to_output net) dw_ho)
         (descend lr (bias_hidden net) db_h)
         (descend lr (bias_output net) db_o)
         lr
         (z_hidden net) (a_hidden net) (z_output net) (a_output net).

(** One epoch as the specification lists it: forward, loss, backward,
    update, in this order; the result is the loss and the new state. *)
Definition epoch_result (x y_true : ndarray F) (net : NeuralNetwork F)
  : option (F * NeuralNetwork F) :=
  match forward x net with
  | None => None
  | Some (y_pred, net1) =>
      match compute_loss y_true y_pred with
      | None => None
      | Some loss =>
          match backward x y_true net1 with
          | None => None
          | Some ((dw_ih, db_h, dw_ho, db_o), net2) =>
              match update_parameters dw_ih db_h dw_ho db_o net2 with
              | None => None
              | Some (_, net3) => Some (loss, net3)
              end
          end
      end
  end.

(** The losses of the first [e] epochs and the state after them. *)
Fixpoint epochs_run (x y_true : ndarray F) (e : nat) (net : NeuralNetwork F)
  : option (list F * NeuralNetwork F) :=
  match e with
  | 0 => Some ([], net)
  | S e' =>
      match epochs_run x y_true e' net with
      | None => None
      | Some (losses, net') =>
          match epoch_result x y_true net' with
          | None => None
          | Some (loss, net'') => Some (losses ++ [loss], net'')
          end
      end
  end.

(** The progress lines of [e] epochs with the given losses: one line
    [(epoch, loss)] for each epoch index divisible by 100. *)
Definition progress_lines (e : nat) (losses : list F) : list (event F) :=
  map (fun i => Print i (nth i losses f0))
      (filter (fun i => i mod 100 =? 0) (seq 0 e)).
End Formulas.

(** ** Exact arithmetic: the real numbers as scalars

    The real numbers have no rounding, no overflow, no infinity and no
    NaN, and a division by 0 is a real number.  A statement over this
    carrier describes the float64 code only where that code divides by
    something other than 0 and stays finite, and then up to rounding; the
    statements over the reals carry the hypotheses that keep them there. *)

#[global] Instance R_scalar : Scalar R := {|
  f0 := 0%R;
  f1 := 1%R;
  fadd := Rplus;
  fsub := Rminus;
  fmul := Rmult;
  fdiv := Rdiv;
  fneg := Ropp;
  fmax := Rmax;
  fexp := exp;
  flog := ln;
  fgt := fun x y => if Rgt_dec x y then true else false;
  of_nat := INR;
  lit_1e_9 := (1 / 1000000000)%R;
  lit_0_01 := (1 / 100)%R
|}.

(** A one-hot label matrix of shape [(m, k)]: each row has a single 1 and
    zeros elsewhere. *)
Definition one_hot (Y : ndarray R) (m k : nat) : Prop :=
  has_shape Y m k /\
  forall i, i < m ->
    exists t, t < k /\ get Y i t = 1%R /\
              forall c, c < k -> c <> t -> get Y i c = 0%R.




(** ** IEEE 754 binary64: the numbers of numpy

    [SpecFloat] of the Standard Library specifies the arithmetic of
    IEEE 754; binary64 has a precision of 53 bits and its infinities at
    exponent 1024.  Sum, difference, product, quotient and comparison are
    the operations of the standard, rounded to nearest even.  [np.exp] and
    [np.log] call the C library: at zeros, infinities, NaN and negative
    numbers their values are those the C standard fixes; at every other
    argument they are the values of [libm_exp] and [libm_log], which stay
    parameters of the carrier. *)

Definition float64 : Type := SpecFloat.spec_float.

Definition b64_nan : float64 := SpecFloat.S754_nan.

Definition b64_zero : float64 := SpecFloat.S754_zero false.

Definition b64_inf : float64 := SpecFloat.S754_infinity false.

(** The float of an integer: exact up to 2^53. *)
Definition b64_of_Z (z : Z) : float64 :=
  SpecFloat.binary_normalize 53 1024 z 0 false.

Definition b64_one : float64 := b64_of_Z 1.

Definition b64_add : float64 -> float64 -> float64 := SpecFloat.SFadd 53 1024.

Definition b64_sub : float64 -> float64 -> float64 := SpecFloat.SFsub 53 1024.

Definition b64_mul : float64 -> float64 -> float64 := SpecFloat.SFmul 53 1024.

Definition b64_div : float64 -> float64 -> float64 := SpecFloat.SFdiv 53 1024.

(** [x > y] and [x >= y]: false as soon as one side is NaN. *)
Definition b64_gt (x y : float64) : bool := SpecFloat.SFltb y x.

Definition b64_ge (x y : float64) : bool := SpecFloat.SFleb y x.

(** [np.maximum] on two scalars: NaN as soon as one of them is NaN. *)
Definition b64_maximum (x y : float64) : float64 :=
  match SpecFloat.SFcompare x y with
  | None => b64_nan
  | Some Lt => y
  | Some _ => x
  end.

(** [np.exp]: exp(NaN) = NaN, exp(+inf) = +inf, exp(-inf) = +0,
    exp(+-0) = 1. *)
Definition b64_exp (libm_exp : float64 -> float64) (x : float64) : float64 :=
  match x with
  | SpecFloat.S754_nan => b64_nan
  | SpecFloat.S754_infinity false => b64_inf
  | SpecFloat.S754_infinity true => b64_zero
  | SpecFloat.S754_zero _ => b64_one
  | SpecFloat.S754_finite _ _ _ => libm_exp x
  end.

(** [np.log]: log(NaN) = NaN, log(+inf) = +inf, log(+-0) = -inf, and NaN
    at a negative argument. *)
Definition b64_log (libm_log : float64 -> float64) (x : float64) : float64 :=
  match x with
  | SpecFloat.S754_nan => b64_nan
  | SpecFloat.S754_infinity false => b64_inf
  | SpecFloat.S754_infinity true => b64_nan
  | SpecFloat.S754_zero _ => SpecFloat.S754_infinity true
  | SpecFloat.S754_finite true _ _ => b64_nan
  | SpecFloat.S754_finite false _ _ => libm_log x
  end.

(** Zeros and the other finite numbers; then the infinities and NaN. *)
Definition b64_is_finite (x : float64) : bool :=
  match x with
  | SpecFloat.S754_zero _ | SpecFloat.S754_finite _ _ _ => true
  | SpecFloat.S754_infinity _ | SpecFloat.S754_nan => false
  end.

(** [+0.0] or [-0.0] *)
Definition b64_is_zero (x : float64) : bool :=
  match x with
  | SpecFloat.S754_zero _ => true
  | _ => false
  end.

Definition float64_scalar (libm_exp libm_log : float64 -> float64)
  : Scalar float64 := {|
  f0 := b64_zero;
  f1 := b64_one;
  fadd := b64_add;
  fsub := b64_sub;
  fmul := b64_mul;
  fdiv := b64_div;
  fneg := SpecFloat.SFopp;
  fmax := b64_maximum;
  fexp := b64_exp libm_exp;
  flog := b64_log libm_log;
  fgt := b64_gt;
  of_nat := fun n => b64_of_Z (Z.of_nat n);
  lit_1e_9 := b64_div (b64_of_Z 1) (b64_of_Z 1000000000);
  lit_0_01 := b64_div (b64_of_Z 1) (b64_of_Z 100)
|}.

(** *** Finite data on which float64 overflows *)


(** The largest float, about 1.797e308 *)
Definition b64_max : float64 :=
  SpecFloat.S754_finite false 9007199254740991 971.



(** One feature, one hidden unit and three classes; the hidden-to-output
    weights have the largest finite magnitude.  On the input 0 the hidden
    pre-activation is 0 and the three probabilities are 1/3; with the label
    of class 0 the upstream gradient of the hidden unit is 4/3 of the
    largest float, beyond it in whatever order it is computed. *)
Definition steep_net : NeuralNetwork float64 :=
  mk_net (mk_ndarray 1 1 [[b64_of_Z 1]])
         (mk_ndarray 1 3 [[SpecFloat.SFopp b64_max; b64_max; b64_max]])
         (mk_ndarray 1 1 [[b64_of_Z 0]])
         (mk_ndarray 1 3 [[b64_of_Z 0; b64_of_Z 0; b64_of_Z 0]])
         (b64_div (b64_of_Z 1) (b64_of_Z 100))
         None None None None.

Definition zero_x : ndarray float64 := mk_ndarray 1 1 [[b64_of_Z 0]].

Definition first_y : ndarray float64 :=
  mk_ndarray 1 3 [[b64_of_Z 1; b64_of_Z 0; b64_of_Z 0]].

(** Labels or predictions of a batch without rows, for three classes. *)
Definition no_rows : ndarray float64 := mk_ndarray 0 3 [].

(** Every entry of an array is a finite float. *)
Definition all_finite (A : ndarray float64) : bool :=
  forallb (forallb b64_is_finite) (rows A).

Definition finite_params (net : NeuralNetwork float64) : bool :=
  all_finite (weights_input_to_hidden net) &&
  all_finite (weights_hidden_to_output net) &&
  all_finite (bias_hidden net) && all_finite (bias_output net).

(** ** A small network and batch

    Two features, two hidden units, two classes and a batch of two rows. *)

Definition ex_x : ndarray R := mk_ndarray 2 2 [[1; 2]; [0; -1]]%R.

Definition ex_y : ndarray R := mk_ndarray 2 2 [[1; 0]; [0; 1]]%R.

(** Another batch, of a single row. *)
Definition ex_x1 : ndarray R := mk_ndarray 1 2 [[0; 5]]%R.

Definition ex_net : NeuralNetwork R :=
  mk_net (mk_ndarray 2 2 [[1; 0]; [0; 1]]%R)
         (mk_ndarray 2 2 [[1; -1]; [0; 2]]%R)
         (mk_ndarray 1 2 [[0; 0]]%R)
         (mk_ndarray 1 2 [[0; 0]]%R)
         (1 / 100)%R
         None None None None.



(** ** The cell that trains and tests the network

    The data come from [load_iris], [OneHotEncoder] and [train_test_split];
    they are inputs of the model.  The rest of the cell is the code below. *)

(** [a == b] on two 1-D integer arrays, with broadcasting of a length 1;
    other lengths that differ are an error (current numpy raises). *)
Definition np_equal_1d (a b : list nat) : option (list bool) :=
  match bdim (length a) (length b) with
  | Some n =>
      Some (map (fun i => nth (bidx (length a) i) a 0 =?
                          nth (bidx (length b) i) b 0) (seq 0 n))
  | None => None
  end.

(** The number of [True] in a boolean array. *)
Definition count_true (l : list bool) : nat :=
  length (filter (fun b => b) l).

Section Script.
Context {F : Type} {SF : Scalar F}.

Local Open Scope se_scope.

(** [np.mean] of a boolean array: the number of [True] over the length. *)
Definition np_mean_bool (l : list bool) : F :=
  fdiv (of_nat (count_true l)) (of_nat (length l)).

(** From "Testing the network" on: forward pass on the test features,
    argmax of the predictions and of the one-hot test labels, and the mean
    of their elementwise equality.  The result is [accuracy]. *)
Definition test_network (test_x test_y : ndarray F) : method F :=
  y_pred <- forward test_x ;;
  y_pred_labels <- lift (np_argmax_axis1 y_pred) ;;
  test_y_labels <- lift (np_argmax_axis1 test_y) ;;
  same <- lift (np_equal_1d y_pred_labels test_y_labels) ;;
  ret (np_mean_bool same).

(** The cell from the construction of the network on: sizes 4, 20, 3,
    5000 epochs.  [lr] is the literal 0.025; [rand_ih] and [rand_ho] are the
    random draws of the constructor.  The result is what [train] shows and
    the accuracy. *)
Definition notebook_main (lr : F) (rand_ih rand_ho : nat -> nat -> F)
           (train_x train_y test_x test_y : ndarray F)
  : option (list F * list (event F) * F) :=
  let nn := init 4 20 3 (Some lr) rand_ih rand_ho in
  match train train_x train_y 5000 nn with
  | None => None
  | Some ((loss_history, out), nn1) =>
      match test_network test_x test_y nn1 with
      | None => None
      | Some (accuracy, _) => Some (loss_history, out, accuracy)
      end
  end.

(** The two states have the same parameter shapes and learning rate. *)
Definition same_shapes (net net' : NeuralNetwork F) : Prop :=
  nrows (weights_input_to_hidden net') = nrows (weights_input_to_hidden net) /\
  ncols (weights_input_to_hidden net') = ncols (weights_input_to_hidden net) /\
  nrows (weights_hidden_to_output net') = nrows (weights_hidden_to_output net) /\
  ncols (weights_hidden_to_output net') = ncols (weights_hidden_to_output net) /\
  nrows (bias_hidden net') = nrows (bias_hidden net) /\
  ncols (bias_hidden net') = ncols (bias_hidden net) /\
  nrows (bias_output net') = nrows (bias_output net) /\
  ncols (bias_output net') = ncols (bias_output net) /\
  learning_rate net' = learning_rate net.
End Script.

(** Three rows of the Iris data, one per class, as a split of two
    training rows and one test row. *)
Definition iris_train_x : ndarray R :=
  mk_ndarray 2 4 [[51 / 10; 35 / 10; 14 / 10; 2 / 10];
                  [7; 32 / 10; 47 / 10; 14 / 10]]%R.

Definition iris_train_y : ndarray R :=
  mk_ndarray 2 3 [[1; 0; 0]; [0; 1; 0]]%R.

Definition iris_test_x : ndarray R :=
  mk_ndarray 1 4 [[63 / 10; 33 / 10; 6; 25 / 10]]%R.

Definition iris_test_y : ndarray R := mk_ndarray 1 3 [[0; 0; 1]]%R.

(** Labels for three rows. *)
Definition three_labels : ndarray R :=
  mk_ndarray 3 2 [[1; 0]; [0; 1]; [1; 0]]%R.

(** A network without output units. *)
Definition no_class_net : NeuralNetwork R :=
  mk_net (mk_ndarray 2 2 [[1; 0]; [0; 1]]%R)
         (mk_ndarray 2 0 [[]; []])
         (mk_ndarray 1 2 [[0; 0]]%R)
         (mk_ndarray 1 0 [[]])
         (1 / 100)%R
         None None None None.

(** * Properties *)

(** ** Concrete runs *)

Example range_step_250 : range_step 250 100 = [0; 100; 200].
Proof. reflexivity. Qed.

Example slice_step_5 : slice_step 2 [10; 11; 12; 13; 14] = [10; 12; 14].
Proof. reflexivity. Qed.

Example bdim_stretch : bdim 3 1 = Some 3 /\ bdim 1 0 = Some 0 /\ bdim 2 3 = None.
Proof. repeat split. Qed.

(** [np.argmax] keeps the first of several largest entries. *)
Example argmax_tie :
  np_argmax_axis1 (mk_ndarray 2 4 [[1; 5; 5; 2]; [7; 1; 7; 7]]%R) = Some [1; 0].
Proof.
  unfold np_argmax_axis1, argmax_upto, get; simpl.
  destruct (Rgt_dec 5 1) as [_|H]; [|lra].
  destruct (Rgt_dec 5 5) as [H|_]; [lra|].
  destruct (Rgt_dec 2 5) as [H|_]; [lra|].
  destruct (Rgt_dec 1 7) as [H|_]; [lra|].
  destruct (Rgt_dec 7 7) as [H|_]; [lra|].
  destruct (Rgt_dec 7 7) as [H|_]; [lra|].
  reflexivity.
Qed.

(** Before the first [forward] the cached attributes do not exist. *)
Example backward_before_forward : backward ex_x ex_y ex_net = None.
Proof. reflexivity. Qed.

(** A batch with three features does not fit two input units. *)
Example forward_wrong_width :
  forward (mk_ndarray 1 3 [[1; 2; 3]]%R) ex_net = None.
Proof. reflexivity. Qed.

(** A gradient of shape (2, 2) cannot be subtracted in place from a bias of
    shape (1, 2). *)
Example update_wrong_bias_shape :
  update_parameters ex_y ex_y ex_y ex_y ex_net = None.
Proof. reflexivity. Qed.

(** After [predict] on a batch of one row the cache holds one row, and
    [backward] on the batch of two rows raises in its first [np.dot]. *)
Example backward_on_stale_cache :
  (forward ex_x ;; predict ex_x1 ;; backward ex_x ex_y)%se ex_net = None.
Proof. reflexivity. Qed.

(** The two literals of the code, as binary64 numbers: the quotients
    1 / 100 and 1 / 10^9 rounded to nearest are the floats that Python
    reads from [0.01] and [1e-9]. *)
Example lit_0_01_bits :
  b64_div (b64_of_Z 1) (b64_of_Z 100)
  = SpecFloat.S754_finite false 5764607523034235 (-59).
Proof. vm_compute. reflexivity. Qed.

Example lit_1e_9_bits :
  b64_div (b64_of_Z 1) (b64_of_Z 1000000000)
  = SpecFloat.S754_finite false 4835703278458517 (-82).
Proof. vm_compute. reflexivity. Qed.

(** [inf * 0.0], [0.0 / 0] and [inf - inf] are NaN, and NaN is not
    greater than, nor at least, anything. *)
Example b64_invalid_operations :
  b64_mul b64_inf b64_zero = b64_nan /\
  b64_div b64_zero b64_zero = b64_nan /\
  b64_sub b64_inf b64_inf = b64_nan /\
  b64_gt b64_nan b64_zero = false /\ b64_ge b64_nan b64_nan = false.
Proof. repeat split. Qed.

(** ** Indexed folds *)

Section FoldFacts.
Context {F : Type} {SF : Scalar F}.

Lemma fold_left_ext_in (A : Type) (f g : A -> nat -> A) (l : list nat) :
  (forall a i, In i l -> f a i = g a i) ->
  forall a, fold_left f l a = fold_left g l a.
Proof.
  induction l as [|x l IH]; intros Hfg a; simpl; [reflexivity|].
  rewrite (Hfg a x) by (left; reflexivity).
  apply IH. intros b i Hi. apply Hfg. right; exact Hi.
Qed.

Lemma bigsum_ext (n : nat) (f g : nat -> F) :
  (forall i, i < n -> f i = g i) -> bigsum n f = bigsum n g.
Proof.
  intros Hfg. unfold bigsum. apply fold_left_ext_in.
  intros a i Hi. apply in_seq in Hi. rewrite Hfg by lia. reflexivity.
Qed.

Lemma bigsum_0 (f : nat -> F) : bigsum 0 f = f0.
Proof. reflexivity. Qed.

Lemma bigsum_S (n : nat) (f : nat -> F) :
  bigsum (S n) f = fadd (bigsum n f) (f n).
Proof.
  unfold bigsum. rewrite seq_S, fold_left_app. reflexivity.
Qed.

Lemma bigmax_ext (n : nat) (f g : nat -> F) :
  0 < n -> (forall i, i < n -> f i = g i) -> bigmax n f = bigmax n g.
Proof.
  intros Hn Hfg. unfold bigmax. rewrite (Hfg 0 Hn).
  apply fold_left_ext_in.
  intros a i Hi. apply in_seq in Hi. rewrite Hfg by lia. reflexivity.
Qed.

Lemma bigmax_S (n : nat) (f : nat -> F) :
  bigmax (S (S n)) f = fmax (bigmax (S n) f) (f (S n)).
Proof.
  unfold bigmax. replace (S (S n) - 1) with (S n) by lia.
  replace (S n - 1) with n by lia.
  rewrite seq_S, fold_left_app. reflexivity.
Qed.

Lemma argmax_upto_S (n : nat) (f : nat -> F) :
  argmax_upto (S (S n)) f =
  if fgt (f (S n)) (f (argmax_upto (S n) f)) then S n
  else argmax_upto (S n) f.
Proof.
  unfold argmax_upto. replace (S (S n) - 1) with (S n) by lia.
  replace (S n - 1) with n by lia.
  rewrite seq_S, fold_left_app. reflexivity.
Qed.
End FoldFacts.

(** ** Running a method step by step *)

Section MonadFacts.
Context {S A B : Type}.

Lemma bind_ret (a : A) (k : A -> SE S B) (s : S) : bind (ret a) k s = k a s.
Proof. reflexivity. Qed.

Lemma bind_gets (f : S -> A) (k : A -> SE S B) (s : S) :
  bind (gets f) k s = k (f s) s.
Proof. reflexivity. Qed.

Lemma bind_modify (f : S -> S) (k : unit -> SE S B) (s : S) :
  bind (modify f) k s = k tt (f s).
Proof. reflexivity. Qed.

Lemma bind_lift (o : option A) (a : A) (k : A -> SE S B) (s : S) :
  o = Some a -> bind (lift o) k s = k a s.
Proof. intros ->. reflexivity. Qed.

Lemma bind_attr (f : S -> option A) (a : A) (k : A -> SE S B) (s : S) :
  f s = Some a -> bind (attr f) k s = k a s.
Proof. intros Hf. unfold bind, attr. rewrite Hf. reflexivity. Qed.

End MonadFacts.

(** Run a numpy call that succeeds by the lemma [lem]. *)
Ltac se_lift lem :=
  rewrite (bind_lift _ _ (lem ltac:(solve [assumption | reflexivity])
                              ltac:(solve [assumption | reflexivity])
                              ltac:(solve [assumption | reflexivity])
                              ltac:(solve [assumption | reflexivity]))).

(** ** Arrays *)

Section ArrayFacts.
Context {F : Type} {SF : Scalar F}.

Lemma get_tabulate (m k : nat) (f : nat -> nat -> F) (i j : nat) :
  i < m -> j < k -> get (tabulate m k f) i j = f i j.
Proof.
  intros Hi Hj. unfold get, tabulate; simpl.
  rewrite (nth_indep _ [] (map (fun j => f 0 j) (seq 0 k)))
    by (rewrite length_map, length_seq; exact Hi).
  rewrite (map_nth (fun i => map (fun j => f i j) (seq 0 k)) (seq 0 m) 0 i).
  rewrite seq_nth by exact Hi. simpl.
  rewrite (nth_indep _ f0 (f i 0))
    by (rewrite length_map, length_seq; exact Hj).
  rewrite (map_nth (fun j => f i j) (seq 0 k) 0 j).
  rewrite seq_nth by exact Hj. reflexivity.
Qed.

Lemma tabulate_ext (m k : nat) (f g : nat -> nat -> F) :
  (forall i j, i < m -> j < k -> f i j = g i j) ->
  tabulate m k f = tabulate m k g.
Proof.
  intros Hfg. unfold tabulate. f_equal.
  apply map_ext_in. intros i Hi. apply in_seq in Hi.
  apply map_ext_in. intros j Hj. apply in_seq in Hj.
  apply Hfg; lia.
Qed.

Lemma wf_tabulate (m k : nat) (f : nat -> nat -> F) : wf (tabulate m k f).
Proof.
  split; simpl.
  - rewrite length_map, length_seq. reflexivity.
  - apply Forall_forall. intros r Hr. apply in_map_iff in Hr.
    destruct Hr as [i [<- _]]. rewrite length_map, length_seq. reflexivity.
Qed.

Lemma has_shape_tabulate (m k : nat) (f : nat -> nat -> F) :
  has_shape (tabulate m k f) m k.
Proof. split; [apply wf_tabulate | split; reflexivity]. Qed.

(** A well-formed array is the table of its entries. *)
Lemma tabulate_get (A : ndarray F) :
  wf A -> tabulate (nrows A) (ncols A) (get A) = A.
Proof.
  destruct A as [m k rs]. unfold wf, tabulate, get; simpl.
  intros [Hlen Hrows]. f_equal. subst m.
  apply nth_ext with (d := []) (d' := []).
  - rewrite length_map, length_seq. reflexivity.
  - intros i Hi. rewrite length_map, length_seq in Hi.
    rewrite (nth_indep _ [] (map (fun j => nth j (nth 0 rs []) f0) (seq 0 k)))
      by (rewrite length_map, length_seq; exact Hi).
    rewrite (map_nth (fun i => map (fun j => nth j (nth i rs []) f0) (seq 0 k))
                     (seq 0 (length rs)) 0 i).
    rewrite seq_nth by exact Hi. simpl.
    assert (Hk : length (nth i rs []) = k).
    { rewrite Forall_forall in Hrows. apply Hrows. apply nth_In. exact Hi. }
    apply nth_ext with (d := f0) (d' := f0).
    + rewrite length_map, length_seq. symmetry. exact Hk.
    + intros j Hj. rewrite length_map, length_seq in Hj.
      rewrite (nth_indep _ f0 (nth 0 (nth i rs []) f0))
        by (rewrite length_map, length_seq; exact Hj).
      rewrite (map_nth (fun j => nth j (nth i rs []) f0) (seq 0 k) 0 j).
      rewrite seq_nth by exact Hj. reflexivity.
Qed.

(** Two arrays of one shape with the same entries are equal. *)
Lemma ndarray_ext (A B : ndarray F) (m k : nat) :
  has_shape A m k -> has_shape B m k ->
  (forall i j, i < m -> j < k -> get A i j = get B i j) -> A = B.
Proof.
  intros (HwA & HmA & HkA) (HwB & HmB & HkB) Hget.
  rewrite <- (tabulate_get HwA), <- (tabulate_get HwB).
  rewrite HmA, HkA, HmB, HkB. apply tabulate_ext. exact Hget.
Qed.

Lemma bidx_lt (d i : nat) : i < d -> bidx d i = i.
Proof.
  intros Hi. unfold bidx. destruct (Nat.eqb_spec d 1); [lia | reflexivity].
Qed.

Lemma bidx_1 (i : nat) : bidx 1 i = 0.
Proof. reflexivity. Qed.

Lemma bdim_same (a : nat) : bdim a a = Some a.
Proof. unfold bdim. rewrite Nat.eqb_refl. reflexivity. Qed.

Lemma bdim_1_r (a : nat) : bdim a 1 = Some a.
Proof.
  unfold bdim. destruct (Nat.eqb_spec a 1) as [->|Hne]; [reflexivity|].
  reflexivity.
Qed.

(** Two arrays of the same shape: no stretching. *)
Lemma broadcast2_same (f : F -> F -> F) (A B : ndarray F) (m k : nat) :
  nrows A = m -> ncols A = k -> nrows B = m -> ncols B = k ->
  broadcast2 f A B = Some (tabulate m k (fun i j => f (get A i j) (get B i j))).
Proof.
  intros HmA HkA HmB HkB. unfold broadcast2.
  rewrite HmA, HkA, HmB, HkB, !bdim_same. f_equal.
  apply tabulate_ext. intros i j Hi Hj. rewrite !bidx_lt by assumption.
  reflexivity.
Qed.

(** An [(m, k)] array and a row of shape [(1, k)]. *)
Lemma broadcast2_row (f : F -> F -> F) (A B : ndarray F) (m k : nat) :
  nrows A = m -> ncols A = k -> nrows B = 1 -> ncols B = k ->
  broadcast2 f A B = Some (tabulate m k (fun i j => f (get A i j) (get B 0 j))).
Proof.
  intros HmA HkA HmB HkB. unfold broadcast2.
  rewrite HmA, HkA, HmB, HkB, bdim_1_r, bdim_same. f_equal.
  apply tabulate_ext. intros i j Hi Hj. rewrite bidx_1.
  rewrite !bidx_lt by assumption. reflexivity.
Qed.

(** An [(m, k)] array and a column of shape [(m, 1)]. *)
Lemma broadcast2_col (f : F -> F -> F) (A B : ndarray F) (m k : nat) :
  nrows A = m -> ncols A = k -> nrows B = m -> ncols B = 1 ->
  broadcast2 f A B = Some (tabulate m k (fun i j => f (get A i j) (get B i 0))).
Proof.
  intros HmA HkA HmB HkB. unfold broadcast2.
  rewrite HmA, HkA, HmB, HkB, bdim_1_r, bdim_same. f_equal.
  apply tabulate_ext. intros i j Hi Hj. rewrite bidx_1.
  rewrite !bidx_lt by assumption. reflexivity.
Qed.

Lemma np_dot_shaped (A B : ndarray F) (m n k : nat) :
  nrows A = m -> ncols A = n -> nrows B = n -> ncols B = k ->
  np_dot A B = Some (tabulate m k (matmul n (get A) (get B))).
Proof.
  intros HmA HnA HnB HkB. unfold np_dot.
  rewrite HmA, HnA, HnB, HkB, Nat.eqb_refl. reflexivity.
Qed.
End ArrayFacts.

(** ** The forward pass *)

Section ForwardFacts.
Context {F : Type} {SF : Scalar F}.

Lemma matmul_ext (n : nat) (A A' B B' : mat) (i j : nat) :
  (forall l, l < n -> A i l = A' i l) ->
  (forall l, l < n -> B l j = B' l j) ->
  matmul n A B i j = matmul n A' B' i j.
Proof.
  intros HA HB. unfold matmul. apply bigsum_ext.
  intros l Hl. rewrite HA, HB by exact Hl. reflexivity.
Qed.

Lemma softmax_mat_ext (k : nat) (Z Z' : mat) (i j : nat) :
  j < k -> (forall c, c < k -> Z i c = Z' i c) ->
  softmax_mat k Z i j = softmax_mat k Z' i j.
Proof.
  intros Hj HZ. unfold softmax_mat.
  assert (Hmax : bigmax k (Z i) = bigmax k (Z' i))
    by (apply bigmax_ext; [lia | exact HZ]).
  rewrite Hmax, (HZ j Hj). f_equal.
  apply bigsum_ext. intros c Hc. rewrite (HZ c Hc). reflexivity.
Qed.

(** [softmax] on an array with at least one column. *)
Lemma softmax_shaped (Z : ndarray F) (m k : nat) :
  nrows Z = m -> ncols Z = k -> 0 < k ->
  softmax Z = Some (tabulate m k (softmax_mat k (get Z))).
Proof.
  intros Hm Hk Hpos. unfold softmax, np_max_axis1.
  destruct (Nat.eqb_spec (ncols Z) 0) as [H0|_]; [lia|].
  rewrite (@broadcast2_col _ _ fsub Z _ m k) by (assumption || reflexivity).
  unfold nd_map, np_sum_axis1; simpl.
  rewrite (@broadcast2_col _ _ fdiv _ _ m k) by reflexivity.
  f_equal. apply tabulate_ext. intros i j Hi Hj.
  repeat (rewrite get_tabulate by lia).
  rewrite Hm, Hk. unfold softmax_mat. f_equal.
  apply bigsum_ext. intros c Hc.
  repeat (rewrite get_tabulate by lia).
  reflexivity.
Qed.

(** [forward] returns the output activation of [forward_values] and
    stores the four arrays; it raises exactly when computing them does. *)
Lemma forward_run (x : ndarray F) (net : NeuralNetwork F) :
  forward x net =
  match forward_values net x with
  | Some (zh, ah, zo, ao) => Some (ao, with_cache net zh ah zo ao)
  | None => None
  end.
Proof.
  unfold forward, forward_values, bind, gets, lift, modify, attr; cbn.
  destruct (np_dot x (weights_input_to_hidden net)) as [xw|]; [|reflexivity].
  destruct (broadcast2 fadd xw (bias_hidden net)) as [zh|]; [|reflexivity].
  cbn.
  destruct (np_dot (relu zh) (weights_hidden_to_output net)) as [aw|];
    [|reflexivity].
  cbn.
  destruct (broadcast2 fadd aw (bias_output net)) as [zo|]; [|reflexivity].
  cbn.
  destruct (softmax zo) as [ao|]; reflexivity.
Qed.

(** The computed arrays do not depend on what was cached before. *)
Lemma forward_values_with_cache (net : NeuralNetwork F)
      (zh ah zo ao x : ndarray F) :
  forward_values (with_cache net zh ah zo ao) x = forward_values net x.
Proof. reflexivity. Qed.

Lemma with_cache_with_cache (net : NeuralNetwork F)
      (zh ah zo ao zh' ah' zo' ao' : ndarray F) :
  with_cache (with_cache net zh ah zo ao) zh' ah' zo' ao' =
  with_cache net zh' ah' zo' ao'.
Proof. reflexivity. Qed.

(** On well-shaped data the four arrays are the matrices of the
    specification. *)
Lemma forward_values_shaped (net : NeuralNetwork F) (x : ndarray F)
      (m n h k : nat) :
  nrows x = m -> ncols x = n -> params_shaped net n h k -> 0 < k ->
  let W_ih := weights_input_to_hidden net in
  let W_ho := weights_hidden_to_output net in
  let b_h := bias_hidden net in
  let b_o := bias_output net in
  forward_values net x =
  Some (tabulate m h (hidden_pre n x W_ih b_h),
        tabulate m h (hidden_act n x W_ih b_h),
        tabulate m k (output_pre n h x W_ih b_h W_ho b_o),
        tabulate m k (output_act n h k x W_ih b_h W_ho b_o)).
Proof.
  intros Hm Hn (HWih & HWho & Hbh & Hbo) Hk; simpl.
  destruct HWih as (_ & HWih1 & HWih2). destruct HWho as (_ & HWho1 & HWho2).
  destruct Hbh as (_ & Hbh1 & Hbh2). destruct Hbo as (_ & Hbo1 & Hbo2).
  unfold forward_values.
  rewrite (@np_dot_shaped _ _ x _ m n h) by assumption.
  rewrite (@broadcast2_row _ _ fadd _ _ m h) by (assumption || reflexivity).
  assert (Hzh : tabulate m h (fun i j =>
                  fadd (get (tabulate m h (matmul n (get x)
                          (get (weights_input_to_hidden net)))) i j)
                       (get (bias_hidden net) 0 j))
                = tabulate m h (hidden_pre n x (weights_input_to_hidden net)
                                           (bias_hidden net))).
  { apply tabulate_ext. intros i j Hi Hj.
    rewrite get_tabulate by assumption. reflexivity. }
  rewrite Hzh; clear Hzh.
  assert (Hah : relu (tabulate m h (hidden_pre n x (weights_input_to_hidden net)
                                               (bias_hidden net)))
                = tabulate m h (hidden_act n x (weights_input_to_hidden net)
                                           (bias_hidden net))).
  { unfold relu, nd_map; simpl. apply tabulate_ext. intros i j Hi Hj.
    rewrite get_tabulate by assumption. reflexivity. }
  rewrite Hah; clear Hah.
  rewrite (@np_dot_shaped _ _ _ _ m h k) by (assumption || reflexivity).
  rewrite (@broadcast2_row _ _ fadd _ _ m k) by (assumption || reflexivity).
  assert (Hzo : tabulate m k (fun i j =>
                  fadd (get (tabulate m k (matmul h
                          (get (tabulate m h (hidden_act n x
                             (weights_input_to_hidden net) (bias_hidden net))))
                          (get (weights_hidden_to_output net)))) i j)
                       (get (bias_output net) 0 j))
                = tabulate m k (output_pre n h x (weights_input_to_hidden net)
                     (bias_hidden net) (weights_hidden_to_output net)
                     (bias_output net))).
  { apply tabulate_ext. intros i j Hi Hj.
    rewrite get_tabulate by assumption.
    unfold output_pre, affine. f_equal.
    apply matmul_ext; intros l Hl; [|reflexivity].
    rewrite get_tabulate by assumption. reflexivity. }
  rewrite Hzo; clear Hzo.
  rewrite (@softmax_shaped _ m k) by (reflexivity || assumption).
  do 2 f_equal. apply tabulate_ext. intros i j Hi Hj.
  apply softmax_mat_ext; [exact Hj|]. intros c Hc.
  rewrite get_tabulate by assumption. reflexivity.
Qed.
End ForwardFacts.

(** ** The backward pass *)

Section BackwardFacts.
Context {F : Type} {SF : Scalar F}.

Lemma column_sum_ext (m : nat) (A A' : mat) (j : nat) :
  (forall i, i < m -> A i j = A' i j) -> column_sum m A j = column_sum m A' j.
Proof. intros HA. unfold column_sum. apply bigsum_ext. exact HA. Qed.

(** [backward] on a state whose cache holds arrays of the shapes that a
    forward pass on a batch of [m] rows leaves behind. *)
Lemma backward_body_shaped (net : NeuralNetwork F) (x y zh ah ao : ndarray F)
      (m n h k : nat) :
  z_hidden net = Some zh -> a_hidden net = Some ah -> a_output net = Some ao ->
  nrows x = m -> ncols x = n -> nrows y = m -> ncols y = k ->
  nrows zh = m -> ncols zh = h -> nrows ah = m -> ncols ah = h ->
  nrows ao = m -> ncols ao = k ->
  nrows (weights_hidden_to_output net) = h ->
  ncols (weights_hidden_to_output net) = k ->
  let W_ho := get (weights_hidden_to_output net) in
  backward_body x y net =
  Some (mk_locals
          (tabulate m k (dZ_out (get ao) (get y)))
          (tabulate h k (dW_ho m (get ah) (get ao) (get y)))
          (row_array k (db_o m (get ao) (get y)))
          (tabulate m h (dA_hidden k W_ho (get ao) (get y)))
          (tabulate m h (dZ_hidden k W_ho (get zh) (get ao) (get y)))
          (tabulate n h (dW_ih m k (get x) W_ho (get zh) (get ao) (get y)))
          (row_array h (db_h m k W_ho (get zh) (get ao) (get y))),
        net).
Proof.
  intros Hzh Hah Hao Hxm Hxn Hym Hyk Hzhm Hzhh Hahm Hahh Haom Haok HWh HWk W_ho.
  unfold backward_body. rewrite Hym.
  rewrite (bind_attr _ _ _ Hao).
  se_lift (@broadcast2_same _ _ fsub ao y m k).
  rewrite (bind_attr _ _ _ Hah).
  se_lift (@np_dot_shaped _ _ (np_T ah) (tabulate m k
             (fun i j => fsub (get ao i j) (get y i j))) h m k).
  rewrite bind_gets.
  se_lift (@np_dot_shaped _ _ (tabulate m k
             (fun i j => fsub (get ao i j) (get y i j)))
             (np_T (weights_hidden_to_output net)) m k h).
  rewrite (bind_attr _ _ _ Hzh).
  se_lift (@broadcast2_same _ _ fmul (tabulate m h (matmul k
             (get (tabulate m k (fun i j => fsub (get ao i j) (get y i j))))
             (get (np_T (weights_hidden_to_output net)))))
             (relu_derivative zh) m h).
  erewrite bind_lift
    by (apply (@np_dot_shaped _ _ (np_T x) _ n m h);
        solve [assumption | reflexivity]).
  unfold ret.
  assert (HdZo : forall i c, i < m -> c < k ->
            get (tabulate m k (fun i j => fsub (get ao i j) (get y i j))) i c
            = dZ_out (get ao) (get y) i c).
  { intros i c Hi Hc. rewrite get_tabulate by assumption. reflexivity. }
  assert (HdAh : forall i j, i < m -> j < h ->
            matmul k
              (get (tabulate m k (fun i j => fsub (get ao i j) (get y i j))))
              (get (np_T (weights_hidden_to_output net))) i j
            = dA_hidden k W_ho (get ao) (get y) i j).
  { intros i j Hi Hj. unfold dA_hidden. apply matmul_ext; intros c Hc.
    - apply HdZo; assumption.
    - unfold np_T. rewrite HWh, HWk. rewrite get_tabulate by assumption.
      reflexivity. }
  assert (HdZh : forall i j, i < m -> j < h ->
            get (tabulate m h (fun i j =>
                   fmul (get (tabulate m h (matmul k
                           (get (tabulate m k
                              (fun i j => fsub (get ao i j) (get y i j))))
                           (get (np_T (weights_hidden_to_output net))))) i j)
                        (get (relu_derivative zh) i j))) i j
            = dZ_hidden k W_ho (get zh) (get ao) (get y) i j).
  { intros i j Hi Hj. rewrite get_tabulate by assumption.
    rewrite get_tabulate by assumption. unfold dZ_hidden.
    rewrite HdAh by assumption. f_equal.
    unfold relu_derivative, nd_map. rewrite Hzhm, Hzhh.
    rewrite get_tabulate by assumption. reflexivity. }
  do 2 f_equal. f_equal.
  - unfold div_int, nd_map; simpl. apply tabulate_ext. intros j c Hj Hc.
    rewrite get_tabulate by assumption. unfold dW_ho. f_equal.
    apply matmul_ext; intros i Hi.
    + unfold np_T. rewrite Hahm, Hahh. rewrite get_tabulate by assumption.
      reflexivity.
    + apply HdZo; assumption.
  - unfold div_int, nd_map, np_sum_axis0, row_array; simpl.
    apply tabulate_ext. intros i c Hi Hc.
    rewrite get_tabulate by assumption. unfold db_o. f_equal.
    apply column_sum_ext. intros i' Hi'. apply HdZo; assumption.
  - apply tabulate_ext. intros i j Hi Hj. apply HdAh; assumption.
  - apply tabulate_ext. intros i j Hi Hj.
    rewrite <- (HdZh i j Hi Hj). symmetry.
    match goal with
    | |- get (tabulate m h ?f) i j = _ =>
        exact (@get_tabulate _ _ m h f i j Hi Hj)
    end.
  - unfold div_int, nd_map; simpl. apply tabulate_ext. intros l j Hl Hj.
    rewrite get_tabulate by assumption. unfold dW_ih. f_equal.
    apply matmul_ext; intros i Hi.
    + unfold np_T. rewrite Hxm, Hxn. rewrite get_tabulate by assumption.
      reflexivity.
    + apply HdZh; assumption.
  - unfold div_int, nd_map, np_sum_axis0, row_array; simpl.
    apply tabulate_ext. intros i j Hi Hj.
    rewrite get_tabulate by assumption. unfold db_h. f_equal.
    apply column_sum_ext. intros i' Hi'. apply HdZh; assumption.
Qed.

(** [backward] returns four of the locals of its body. *)
Lemma backward_run (x y : ndarray F) (net : NeuralNetwork F) :
  backward x y net =
  match backward_body x y net with
  | Some (l, net') =>
      Some ((dw_input_to_hidden l, db_hidden l,
             dw_hidden_to_output l, db_output l), net')
  | None => None
  end.
Proof.
  unfold backward, bind, ret.
  destruct (backward_body x y net) as [[l net']|]; reflexivity.
Qed.

(** The body of [backward] never assigns an attribute. *)
Lemma backward_body_state (x y : ndarray F) (net net' : NeuralNetwork F)
      (l : backward_locals F) :
  backward_body x y net = Some (l, net') -> net' = net.
Proof.
  unfold backward_body, bind, gets, lift, attr, ret.
  destruct (a_output net) as [ao|]; [|discriminate].
  destruct (broadcast2 fsub ao y) as [dz_o|]; [|discriminate].
  destruct (a_hidden net) as [ah|]; [|discriminate].
  destruct (np_dot (np_T ah) dz_o) as [ahdz|]; [|discriminate].
  destruct (np_dot dz_o (np_T (weights_hidden_to_output net))) as [da_h|];
    [|discriminate].
  destruct (z_hidden net) as [zh|]; [|discriminate].
  destruct (broadcast2 fmul da_h (relu_derivative zh)) as [dz_h|];
    [|discriminate].
  destruct (np_dot (np_T x) dz_h) as [xdz|]; [|discriminate].
  intros H. inversion H. reflexivity.
Qed.
End BackwardFacts.

(** ** Forward and backward on well-shaped data *)

Section PassFacts.
Context {F : Type} {SF : Scalar F}.

Lemma forward_shaped (net : NeuralNetwork F) (x : ndarray F) (m n h k : nat) :
  nrows x = m -> ncols x = n -> params_shaped net n h k -> 0 < k ->
  forward x net =
  Some (tabulate m k (output_act n h k x (weights_input_to_hidden net)
                        (bias_hidden net) (weights_hidden_to_output net)
                        (bias_output net)),
        after_forward net x m n h k).
Proof.
  intros Hm Hn Hp Hk. rewrite forward_run.
  rewrite (@forward_values_shaped _ _ net x m n h k Hm Hn Hp Hk). reflexivity.
Qed.

Lemma params_shaped_with_cache (net : NeuralNetwork F)
      (zh ah zo ao : ndarray F) (n h k : nat) :
  params_shaped net n h k -> params_shaped (with_cache net zh ah zo ao) n h k.
Proof. intros Hp. exact Hp. Qed.

(** A freshly constructed network has the shapes of its sizes. *)
Lemma init_params_shaped (n h k : nat) (lr : option F)
      (rand_ih rand_ho : nat -> nat -> F) :
  params_shaped (init n h k lr rand_ih rand_ho) n h k.
Proof.
  unfold params_shaped, init, nd_map, np_zeros; simpl.
  repeat split; apply wf_tabulate.
Qed.

(** The locals of [backward] right after [forward] on the same batch. *)
Lemma backward_body_after_forward (net : NeuralNetwork F) (x y : ndarray F)
      (m n h k : nat) :
  nrows x = m -> ncols x = n -> nrows y = m -> ncols y = k ->
  params_shaped net n h k ->
  let net1 := after_forward net x m n h k in
  let W_ho := get (weights_hidden_to_output net) in
  let zh := tabulate m h (hidden_pre n x (weights_input_to_hidden net)
                            (bias_hidden net)) in
  let ah := tabulate m h (hidden_act n x (weights_input_to_hidden net)
                            (bias_hidden net)) in
  let ao := tabulate m k (output_act n h k x (weights_input_to_hidden net)
                            (bias_hidden net) (weights_hidden_to_output net)
                            (bias_output net)) in
  backward_body x y net1 =
  Some (mk_locals
          (tabulate m k (dZ_out (get ao) (get y)))
          (tabulate h k (dW_ho m (get ah) (get ao) (get y)))
          (row_array k (db_o m (get ao) (get y)))
          (tabulate m h (dA_hidden k W_ho (get ao) (get y)))
          (tabulate m h (dZ_hidden k W_ho (get zh) (get ao) (get y)))
          (tabulate n h (dW_ih m k (get x) W_ho (get zh) (get ao) (get y)))
          (row_array h (db_h m k W_ho (get zh) (get ao) (get y))),
        net1).
Proof.
  intros Hxm Hxn Hym Hyk (_ & (_ & HWh & HWk) & _ & _); simpl.
  apply (@backward_body_shaped _ _ (after_forward net x m n h k) x y
           _ _ _ m n h k); solve [reflexivity | assumption].
Qed.
End PassFacts.

(** ** The example network is well shaped *)

Lemma ex_x_shape : has_shape ex_x 2 2.
Proof. repeat split; repeat constructor. Defined.

Lemma ex_y_shape : has_shape ex_y 2 2.
Proof. repeat split; repeat constructor. Defined.

Lemma ex_net_shaped : params_shaped ex_net 2 2 2.
Proof. repeat split; repeat constructor. Defined.

(** ** Claims on the forward and the backward pass *)

Section PassClaims.
Context {F : Type} {SF : Scalar F}.

(** C2: on a batch of shape [(m, n)], [forward] returns the row-wise
    stable softmax of [A_hidden . W_ho + b_o], where [A_hidden] is the
    elementwise max(0, .) of [X . W_ih + b_h]; the four arrays are also
    stored on the object. *)
Theorem forward_computes_relu_softmax
        (net : NeuralNetwork F) (x : ndarray F) (m n h k : nat) :
  has_shape x m n -> params_shaped net n h k -> 0 < k ->
  let Z_hidden : mat :=
    fun i j => fadd (matmul n (get x) (get (weights_input_to_hidden net)) i j)
                    (get (bias_hidden net) 0 j) in
  let A_hidden : mat := fun i j => fmax f0 (Z_hidden i j) in
  let Z_out : mat :=
    fun i j => fadd (matmul h A_hidden (get (weights_hidden_to_output net)) i j)
                    (get (bias_output net) 0 j) in
  let A_out : mat :=
    fun i j =>
      fdiv (fexp (fsub (Z_out i j) (bigmax k (Z_out i))))
           (bigsum k (fun c => fexp (fsub (Z_out i c) (bigmax k (Z_out i))))) in
  forward x net =
  Some (tabulate m k A_out,
        with_cache net (tabulate m h Z_hidden) (tabulate m h A_hidden)
                   (tabulate m k Z_out) (tabulate m k A_out)).
Proof.
  intros (_ & Hm & Hn) Hp Hk; simpl.
  rewrite (@forward_shaped _ _ net x m n h k Hm Hn Hp Hk). reflexivity.
Qed.

(** C1: [backward(X, Y_true)] called right after [forward(X)] returns
    [(dW_ih, db_h, dW_ho, db_o)] with
    dZ_out = Y_pred - Y_true, dW_ho = A_hidden^T . dZ_out / m,
    db_o = column-sum(dZ_out) / m, dA_hidden = dZ_out . W_ho^T,
    dZ_hidden = dA_hidden * ReLU'(Z_hidden), dW_ih = X^T . dZ_hidden / m and
    db_h = column-sum(dZ_hidden) / m, where [Y_pred], [A_hidden] and
    [Z_hidden] are the arrays the forward pass returned and cached. *)
Theorem backward_computes_chain_rule
        (net : NeuralNetwork F) (x y : ndarray F) (m n h k : nat) :
  has_shape x m n -> has_shape y m k -> params_shaped net n h k -> 0 < k ->
  exists y_pred zh ah zo : ndarray F,
    let net1 := with_cache net zh ah zo y_pred in
    let X := get x in
    let Y_true := get y in
    let Y_pred := get y_pred in
    let A_hidden := get ah in
    let Z_hidden := get zh in
    let W_ho := get (weights_hidden_to_output net) in
    let dZ_out : mat := fun i c => fsub (Y_pred i c) (Y_true i c) in
    let dW_ho : mat :=
      fun j c => fdiv (matmul m (transp A_hidden) dZ_out j c) (of_nat m) in
    let db_o := fun c => fdiv (column_sum m dZ_out c) (of_nat m) in
    let dA_hidden : mat := matmul k dZ_out (transp W_ho) in
    let dZ_hidden : mat :=
      fun i j => fmul (dA_hidden i j) (relu' (Z_hidden i j)) in
    let dW_ih : mat :=
      fun l j => fdiv (matmul m (transp X) dZ_hidden l j) (of_nat m) in
    let db_h := fun j => fdiv (column_sum m dZ_hidden j) (of_nat m) in
    forward x net = Some (y_pred, net1) /\
    has_shape zh m h /\ has_shape ah m h /\ has_shape y_pred m k /\
    backward x y net1 =
    Some ((tabulate n h dW_ih, row_array h db_h,
           tabulate h k dW_ho, row_array k db_o), net1).
Proof.
  intros (_ & Hxm & Hxn) (_ & Hym & Hyk) Hp Hk.
  exists (tabulate m k (output_act n h k x (weights_input_to_hidden net)
                          (bias_hidden net) (weights_hidden_to_output net)
                          (bias_output net))),
         (tabulate m h (hidden_pre n x (weights_input_to_hidden net)
                          (bias_hidden net))),
         (tabulate m h (hidden_act n x (weights_input_to_hidden net)
                          (bias_hidden net))),
         (tabulate m k (output_pre n h x (weights_input_to_hidden net)
                          (bias_hidden net) (weights_hidden_to_output net)
                          (bias_output net))).
  cbv zeta.
  split; [exact (@forward_shaped _ _ net x m n h k Hxm Hxn Hp Hk)|].
  split; [apply has_shape_tabulate|].
  split; [apply has_shape_tabulate|].
  split; [apply has_shape_tabulate|].
  rewrite backward_run.
  pose proof (@backward_body_after_forward _ _ net x y m n h k
                Hxm Hxn Hym Hyk Hp) as Hb.
  cbv zeta in Hb. unfold after_forward in Hb. rewrite Hb. reflexivity.
Qed.

(** C7: [backward] only returns the four gradients: the weights, the
    biases, the learning rate (and the cache) are as before the call. *)
Theorem backward_leaves_state
        (net net' : NeuralNetwork F) (x y : ndarray F)
        (g : ndarray F * ndarray F * ndarray F * ndarray F) :
  backward x y net = Some (g, net') ->
  net' = net /\
  weights_input_to_hidden net' = weights_input_to_hidden net /\
  weights_hidden_to_output net' = weights_hidden_to_output net /\
  bias_hidden net' = bias_hidden net /\
  bias_output net' = bias_output net /\
  learning_rate net' = learning_rate net.
Proof.
  rewrite backward_run.
  destruct (backward_body x y net) as [[l s]|] eqn:Hb; [|discriminate].
  intros H. inversion H; subst.
  rewrite (backward_body_state _ _ _ Hb). repeat split.
Qed.

(** [predict] in terms of the values of the forward pass. *)
Lemma predict_run (x : ndarray F) (net : NeuralNetwork F) :
  predict x net =
  match forward_values net x with
  | Some (zh, ah, zo, ao) =>
      match np_argmax_axis1 ao with
      | Some r => Some (r, with_cache net zh ah zo ao)
      | None => None
      end
  | None => None
  end.
Proof.
  unfold predict, bind, lift. rewrite forward_run.
  destruct (forward_values net x) as [[[[zh ah] zo] ao]|]; reflexivity.
Qed.

(** C9: two calls of [predict] on the same input in a row return the same
    indices (and raise together), whatever the state of the network. *)
Theorem predict_twice_same (x : ndarray F) (net : NeuralNetwork F) :
  (r1 <- predict x ;; r2 <- predict x ;; ret (r1, r2))%se net =
  (r <- predict x ;; ret (r, r))%se net.
Proof.
  unfold bind, ret. rewrite predict_run.
  destruct (forward_values net x) as [[[[zh ah] zo] ao]|] eqn:Hv;
    [|reflexivity].
  destruct (np_argmax_axis1 ao) as [r|] eqn:Har; [|reflexivity].
  rewrite predict_run, forward_values_with_cache, Hv, Har.
  reflexivity.
Qed.

(** C10: [forward] (and so [predict]) keeps the weights, the biases and
    the learning rate and replaces the four cached arrays by those of its
    own input; after [forward x] and then [predict x2] the cache is that of
    [x2], and this is what a following [backward] reads: its [dz_output]
    is the prediction for [x2] minus the labels. *)
Theorem forward_only_overwrites_cache
        (net net' : NeuralNetwork F) (x y_pred : ndarray F) :
  forward x net = Some (y_pred, net') ->
  (weights_input_to_hidden net' = weights_input_to_hidden net /\
   weights_hidden_to_output net' = weights_hidden_to_output net /\
   bias_hidden net' = bias_hidden net /\
   bias_output net' = bias_output net /\
   learning_rate net' = learning_rate net) /\
  (exists zh ah zo,
      forward_values net x = Some (zh, ah, zo, y_pred) /\
      z_hidden net' = Some zh /\ a_hidden net' = Some ah /\
      z_output net' = Some zo /\ a_output net' = Some y_pred) /\
  (forall (x2 : ndarray F) (r : list nat) (net2 : NeuralNetwork F),
      predict x2 net' = Some (r, net2) ->
      exists zh2 ah2 zo2 ao2,
        forward_values net x2 = Some (zh2, ah2, zo2, ao2) /\
        net2 = with_cache net zh2 ah2 zo2 ao2 /\
        forall (y : ndarray F) (l : backward_locals F) (net3 : NeuralNetwork F),
          backward_body x y net2 = Some (l, net3) ->
          broadcast2 fsub ao2 y = Some (dz_output l)).
Proof.
  rewrite forward_run.
  destruct (forward_values net x) as [[[[zh ah] zo] ao]|] eqn:Hv;
    [|discriminate].
  intros H. inversion H; subst. clear H.
  split; [repeat split|].
  split; [exists zh, ah, zo; repeat split|].
  intros x2 r net2. rewrite predict_run, forward_values_with_cache.
  destruct (forward_values net x2) as [[[[zh2 ah2] zo2] ao2]|] eqn:Hv2;
    [|discriminate].
  destruct (np_argmax_axis1 ao2) as [r2|]; [|discriminate].
  intros H. inversion H; subst. clear H.
  exists zh2, ah2, zo2, ao2.
  split; [reflexivity|]. split; [reflexivity|].
  intros y l net3. unfold backward_body.
  rewrite (@bind_attr _ _ _ a_output ao2) by reflexivity.
  unfold bind at 1. unfold lift at 1.
  destruct (broadcast2 fsub ao2 y) as [dz|]; [|discriminate].
  rewrite (@bind_attr _ _ _ a_hidden ah2) by reflexivity.
  unfold bind at 1. unfold lift at 1.
  destruct (np_dot (np_T ah2) dz) as [d1|]; [|discriminate].
  rewrite bind_gets. unfold bind at 1. unfold lift at 1.
  destruct (np_dot dz _) as [d2|]; [|discriminate].
  rewrite (@bind_attr _ _ _ z_hidden zh2) by reflexivity.
  unfold bind at 1. unfold lift at 1.
  destruct (broadcast2 fmul d2 _) as [d3|]; [|discriminate].
  unfold bind at 1. unfold lift at 1.
  destruct (np_dot (np_T x) d3) as [d4|]; [|discriminate].
  unfold ret. intros H. inversion H. reflexivity.
Qed.
End PassClaims.

(** ** Parameter update and the training loop *)

Section TrainFacts.
Context {F : Type} {SF : Scalar F}.

Lemma isub_same (A B : ndarray F) (m k : nat) :
  nrows A = m -> ncols A = k -> nrows B = m -> ncols B = k ->
  isub A B = Some (tabulate m k (fun i j => fsub (get A i j) (get B i j))).
Proof.
  intros HmA HkA HmB HkB. unfold isub.
  rewrite (@broadcast2_same _ _ fsub A B m k HmA HkA HmB HkB); simpl.
  rewrite HmA, HkA, !Nat.eqb_refl. reflexivity.
Qed.

Lemma isub_descend (lr : F) (P G : ndarray F) (m k : nat) :
  nrows P = m -> ncols P = k -> nrows G = m -> ncols G = k ->
  isub P (nd_map (fmul lr) G) = Some (descend lr P G).
Proof.
  intros HmP HkP HmG HkG.
  rewrite (@isub_same P (nd_map (fmul lr) G) m k)
    by (assumption || (simpl; assumption)).
  unfold descend. rewrite HmP, HkP. f_equal.
  apply tabulate_ext. intros i j Hi Hj.
  unfold nd_map. rewrite HmG, HkG. rewrite get_tabulate by assumption.
  reflexivity.
Qed.

(** [update_parameters] with gradients of the shapes of the parameters. *)
Lemma update_parameters_shaped (net : NeuralNetwork F)
      (dw_ih db_h dw_ho db_o : ndarray F) (n h k : nat) :
  params_shaped net n h k ->
  nrows dw_ih = n -> ncols dw_ih = h -> nrows db_h = 1 -> ncols db_h = h ->
  nrows dw_ho = h -> ncols dw_ho = k -> nrows db_o = 1 -> ncols db_o = k ->
  update_parameters dw_ih db_h dw_ho db_o net =
  Some (tt, updated net dw_ih db_h dw_ho db_o).
Proof.
  intros ((_ & H1 & H2) & (_ & H3 & H4) & (_ & H5 & H6) & (_ & H7 & H8)).
  intros G1 G2 G3 G4 G5 G6 G7 G8.
  unfold update_parameters.
  rewrite !bind_gets.
  rewrite (bind_lift _ _ (@isub_descend (learning_rate net) _ _ _ _ H1 H2 G1 G2)).
  rewrite bind_modify, !bind_gets.
  rewrite (bind_lift _ _ (@isub_descend (learning_rate net) _ _ _ _ H5 H6 G3 G4)).
  rewrite bind_modify, !bind_gets.
  rewrite (bind_lift _ _ (@isub_descend (learning_rate net) _ _ _ _ H3 H4 G5 G6)).
  rewrite bind_modify, !bind_gets.
  rewrite (bind_lift _ _ (@isub_descend (learning_rate net) _ _ _ _ H7 H8 G7 G8)).
  reflexivity.
Qed.

Lemma params_shaped_updated (net : NeuralNetwork F)
      (dw_ih db_h dw_ho db_o : ndarray F) (n h k : nat) :
  params_shaped net n h k ->
  params_shaped (updated net dw_ih db_h dw_ho db_o) n h k.
Proof.
  intros ((_ & H1 & H2) & (_ & H3 & H4) & (_ & H5 & H6) & (_ & H7 & H8)).
  unfold params_shaped, updated, descend; simpl.
  rewrite H1, H2, H3, H4, H5, H6, H7, H8.
  repeat split; apply wf_tabulate.
Qed.

Lemma compute_loss_shaped (y p : ndarray F) (m k : nat) :
  nrows y = m -> ncols y = k -> nrows p = m -> ncols p = k ->
  compute_loss y p =
  Some (fdiv (fneg (bigsum m (fun i => bigsum k (fun c =>
                fmul (get y i c) (flog (fadd (get p i c) lit_1e_9))))))
             (of_nat m)).
Proof.
  intros Hym Hyk Hpm Hpk. unfold compute_loss.
  rewrite (@broadcast2_same _ _ fmul y _ m k)
    by (assumption || (simpl; assumption)).
  rewrite Hym. unfold np_sum; simpl. do 3 f_equal.
  apply bigsum_ext. intros i Hi. apply bigsum_ext. intros c Hc.
  rewrite get_tabulate by assumption. f_equal.
  unfold nd_map; simpl. rewrite Hpm, Hpk.
  rewrite get_tabulate by assumption. rewrite get_tabulate by assumption.
  reflexivity.
Qed.

(** The loop body of [train] is one epoch of the specification; the
    epoch index only decides whether a line is printed. *)
Lemma train_epoch_run (x y : ndarray F) (e : nat) (hist : list F)
      (out : list (event F)) (net : NeuralNetwork F) :
  train_epoch x y e (hist, out) net =
  match epoch_result x y net with
  | Some (loss, net') =>
      Some ((hist ++ [loss],
             if e mod 100 =? 0 then out ++ [Print e loss] else out), net')
  | None => None
  end.
Proof.
  unfold train_epoch, epoch_result, bind, lift, ret.
  destruct (forward x net) as [[yp net1]|]; [|reflexivity].
  destruct (compute_loss y yp) as [loss|]; [|reflexivity].
  destruct (backward x y net1) as [[[[[g1 g2] g3] g4] net2]|]; [|reflexivity].
  destruct (update_parameters g1 g2 g3 g4 net2) as [[[] net3]|]; reflexivity.
Qed.

(** On well-shaped data an epoch succeeds and keeps the shapes. *)
Lemma epoch_result_shaped (x y : ndarray F) (net : NeuralNetwork F)
      (m n h k : nat) :
  nrows x = m -> ncols x = n -> nrows y = m -> ncols y = k ->
  params_shaped net n h k -> 0 < k ->
  exists loss net', epoch_result x y net = Some (loss, net') /\
                    params_shaped net' n h k.
Proof.
  intros Hxm Hxn Hym Hyk Hp Hk. unfold epoch_result.
  rewrite (@forward_shaped _ _ net x m n h k Hxm Hxn Hp Hk).
  erewrite (@compute_loss_shaped y _ m k) by (assumption || reflexivity).
  rewrite backward_run.
  rewrite (@backward_body_after_forward _ _ net x y m n h k
             Hxm Hxn Hym Hyk Hp).
  cbn [dw_input_to_hidden db_hidden dw_hidden_to_output db_output].
  erewrite update_parameters_shaped;
    [ | apply params_shaped_with_cache; exact Hp | reflexivity .. ].
  eexists. eexists. split; [reflexivity|].
  apply params_shaped_updated. exact Hp.
Qed.

Lemma epochs_run_length (x y : ndarray F) (e : nat) :
  forall (net net' : NeuralNetwork F) (losses : list F),
    epochs_run x y e net = Some (losses, net') -> length losses = e.
Proof.
  induction e as [|e IH]; intros net net' losses; simpl.
  - intros H. inversion H. reflexivity.
  - destruct (epochs_run x y e net) as [[ls n1]|] eqn:He; [|discriminate].
    destruct (epoch_result x y n1) as [[l n2]|]; [|discriminate].
    intros H. inversion H; subst.
    rewrite length_app, (IH _ _ _ He); simpl. lia.
Qed.

Lemma epochs_run_shaped (x y : ndarray F) (m n h k : nat) :
  nrows x = m -> ncols x = n -> nrows y = m -> ncols y = k -> 0 < k ->
  forall (e : nat) (net : NeuralNetwork F),
    params_shaped net n h k ->
    exists losses net', epochs_run x y e net = Some (losses, net') /\
                        params_shaped net' n h k.
Proof.
  intros Hxm Hxn Hym Hyk Hk e net Hp.
  induction e as [|e IH]; simpl.
  - exists [], net. split; [reflexivity | exact Hp].
  - destruct IH as (ls & n1 & -> & Hp1).
    destruct (@epoch_result_shaped x y n1 m n h k Hxm Hxn Hym Hyk Hp1 Hk)
      as (l & n2 & -> & Hp2).
    exists (ls ++ [l]), n2. split; [reflexivity | exact Hp2].
Qed.

Lemma for_each_app (S A : Type) (l1 l2 : list nat)
      (body : nat -> A -> SE S A) :
  forall (acc : A) (s : S),
    for_each (l1 ++ l2) body acc s =
    bind (for_each l1 body acc) (for_each l2 body) s.
Proof.
  induction l1 as [|e l1 IH]; intros acc s; simpl.
  - reflexivity.
  - unfold bind. destruct (body e acc s) as [[acc' s']|]; [|reflexivity].
    rewrite IH. reflexivity.
Qed.

Lemma progress_lines_S (e : nat) (losses : list F) (loss : F) :
  length losses = e ->
  progress_lines (S e) (losses ++ [loss]) =
  if e mod 100 =? 0 then progress_lines e losses ++ [Print e loss]
  else progress_lines e losses.
Proof.
  intros Hlen. unfold progress_lines.
  rewrite seq_S, filter_app, map_app, Nat.add_0_l.
  assert (Hlast : filter (fun i => i mod 100 =? 0) [e]
                  = if e mod 100 =? 0 then [e] else [])
    by reflexivity.
  rewrite Hlast; clear Hlast.
  assert (Hpre : map (fun i => Print i (nth i (losses ++ [loss]) f0))
                     (filter (fun i => i mod 100 =? 0) (seq 0 e))
                 = map (fun i => Print i (nth i losses f0))
                     (filter (fun i => i mod 100 =? 0) (seq 0 e))).
  { apply map_ext_in. intros i Hi. apply filter_In in Hi.
    destruct Hi as [Hi _]. apply in_seq in Hi.
    rewrite app_nth1 by lia. reflexivity. }
  rewrite Hpre.
  destruct (e mod 100 =? 0); cbn [map].
  - rewrite app_nth2 by lia. rewrite Hlen, Nat.sub_diag. reflexivity.
  - rewrite app_nil_r. reflexivity.
Qed.

(** The loop of [train] runs the epochs one after the other and collects
    their losses and progress lines. *)
Lemma train_loop_run (x y : ndarray F) (e : nat) (net : NeuralNetwork F) :
  for_each (seq 0 e) (train_epoch x y) ([], []) net =
  match epochs_run x y e net with
  | Some (losses, net') => Some ((losses, progress_lines e losses), net')
  | None => None
  end.
Proof.
  induction e as [|e IH].
  - reflexivity.
  - rewrite seq_S, for_each_app. unfold bind. rewrite IH. simpl.
    destruct (epochs_run x y e net) as [[ls n1]|] eqn:He; [|reflexivity].
    unfold bind. rewrite train_epoch_run.
    destruct (epoch_result x y n1) as [[l n2]|]; [|reflexivity].
    unfold ret.
    rewrite (@progress_lines_S e ls l (@epochs_run_length x y e net n1 ls He)).
    reflexivity.
Qed.

Lemma train_run (x y : ndarray F) (epochs : nat) (net : NeuralNetwork F) :
  train x y epochs net =
  match epochs_run x y epochs net with
  | Some (losses, net') =>
      Some ((losses,
             progress_lines epochs losses ++
             [Plot (range_step epochs 100) (slice_step 100 losses)]), net')
  | None => None
  end.
Proof.
  unfold train, bind. rewrite train_loop_run.
  destruct (epochs_run x y epochs net) as [[ls n1]|]; reflexivity.
Qed.
End TrainFacts.

(** ** Claims on the training loop *)

Section TrainClaims.
Context {F : Type} {SF : Scalar F}.

Lemma epoch_result_inv (x y : ndarray F) (net net' : NeuralNetwork F)
      (loss : F) :
  epoch_result x y net = Some (loss, net') ->
  exists y_pred net1 dw_ih db_h dw_ho db_o net2,
    forward x net = Some (y_pred, net1) /\
    compute_loss y y_pred = Some loss /\
    backward x y net1 = Some ((dw_ih, db_h, dw_ho, db_o), net2) /\
    update_parameters dw_ih db_h dw_ho db_o net2 = Some (tt, net').
Proof.
  unfold epoch_result.
  destruct (forward x net) as [[yp net1]|] eqn:Hf; [|discriminate].
  destruct (compute_loss y yp) as [l|] eqn:Hl; [|discriminate].
  destruct (backward x y net1) as [[[[[g1 g2] g3] g4] net2]|] eqn:Hb;
    [|discriminate].
  destruct (update_parameters g1 g2 g3 g4 net2) as [[[] net3]|] eqn:Hu;
    [|discriminate].
  intros H. inversion H; subst.
  exists yp, net1, g1, g2, g3, g4, net2. repeat split; assumption.
Qed.

(** Every epoch below the last is an epoch of the run. *)
Lemma epochs_run_step (x y : ndarray F) (net : NeuralNetwork F) (epochs : nat) :
  forall (losses : list F) (net' : NeuralNetwork F),
    epochs_run x y epochs net = Some (losses, net') ->
    forall e, e < epochs ->
      exists ls_e net_e net_e',
        epochs_run x y e net = Some (ls_e, net_e) /\
        epoch_result x y net_e = Some (nth e losses f0, net_e') /\
        epochs_run x y (S e) net = Some (ls_e ++ [nth e losses f0], net_e').
Proof.
  induction epochs as [|E IH]; intros losses net' Hrun e He; [lia|].
  simpl in Hrun.
  destruct (epochs_run x y E net) as [[ls n1]|] eqn:HE; [|discriminate].
  destruct (epoch_result x y n1) as [[l n2]|] eqn:Hres; [|discriminate].
  inversion Hrun; subst. clear Hrun.
  pose proof (@epochs_run_length _ _ x y E net n1 ls HE) as Hlen.
  destruct (Nat.eq_dec e E) as [->|Hne].
  - exists ls, n1, net'.
    rewrite app_nth2 by lia. rewrite Hlen, Nat.sub_diag; simpl.
    split; [exact HE|]. split; [exact Hres|].
    rewrite HE, Hres. reflexivity.
  - destruct (IH ls n1 eq_refl e ltac:(lia)) as (ls_e & net_e & net_e' & H1 & H2 & H3).
    exists ls_e, net_e, net_e'.
    rewrite app_nth1 by lia. repeat split; assumption.
Qed.

Lemma in_progress_lines (epochs : nat) (losses : list F) (e : nat) (loss : F) :
  In (Print e loss) (progress_lines epochs losses) <->
  e < epochs /\ e mod 100 = 0 /\ loss = nth e losses f0.
Proof.
  unfold progress_lines. rewrite in_map_iff. split.
  - intros (i & Hi & Hin). inversion Hi; subst.
    apply filter_In in Hin. destruct Hin as [Hin Hmod].
    apply in_seq in Hin. apply Nat.eqb_eq in Hmod.
    repeat split; [lia | exact Hmod].
  - intros (He & Hmod & ->). exists e. split; [reflexivity|].
    apply filter_In. split; [apply in_seq; lia | apply Nat.eqb_eq; exact Hmod].
Qed.

(** C5: on well-shaped data [train(X, Y_true, epochs)] runs [epochs]
    iterations one after the other, none skipped and none added; each does
    forward, compute_loss, backward and update_parameters in this order on
    the state the previous one left; the loss history gets one entry per
    epoch; and a line (epoch, loss) is printed exactly for the epoch
    indices divisible by 100. *)
Theorem train_runs_all_epochs
        (net : NeuralNetwork F) (x y : ndarray F) (m n h k epochs : nat) :
  has_shape x m n -> has_shape y m k -> params_shaped net n h k -> 0 < k ->
  exists (losses : list F) (net' : NeuralNetwork F),
    train x y epochs net =
    Some ((losses,
           progress_lines epochs losses ++
           [Plot (range_step epochs 100) (slice_step 100 losses)]), net') /\
    length losses = epochs /\
    epochs_run x y epochs net = Some (losses, net') /\
    (forall e, e < epochs ->
       exists ls_e net_e y_pred net1 dw_ih db_h dw_ho db_o net2 net_e',
         epochs_run x y e net = Some (ls_e, net_e) /\
         forward x net_e = Some (y_pred, net1) /\
         compute_loss y y_pred = Some (nth e losses f0) /\
         backward x y net1 = Some ((dw_ih, db_h, dw_ho, db_o), net2) /\
         update_parameters dw_ih db_h dw_ho db_o net2 = Some (tt, net_e') /\
         epochs_run x y (S e) net =
         Some (ls_e ++ [nth e losses f0], net_e')) /\
    (forall e loss,
       In (Print e loss) (progress_lines epochs losses) <->
       e < epochs /\ e mod 100 = 0 /\ loss = nth e losses f0).
Proof.
  intros (_ & Hxm & Hxn) (_ & Hym & Hyk) Hp Hk.
  destruct (@epochs_run_shaped _ _ x y m n h k Hxm Hxn Hym Hyk Hk epochs net Hp)
    as (losses & net' & Hrun & _).
  exists losses, net'.
  split; [rewrite train_run, Hrun; reflexivity|].
  split; [exact (@epochs_run_length _ _ x y epochs net net' losses Hrun)|].
  split; [exact Hrun|].
  split; [|intros e loss; apply in_progress_lines].
  intros e He.
  destruct (@epochs_run_step x y net epochs losses net' Hrun e He)
    as (ls_e & net_e & net_e' & H1 & H2 & H3).
  destruct (epoch_result_inv _ _ _ H2)
    as (yp & net1 & g1 & g2 & g3 & g4 & net2 & Hf & Hl & Hb & Hu).
  exists ls_e, net_e, yp, net1, g1, g2, g3, g4, net2, net_e'.
  repeat split; assumption.
Qed.
End TrainClaims.

(** ** The claims on the example network *)

Lemma forward_computes_relu_softmax_witness :
  has_shape ex_x 2 2 /\ params_shaped ex_net 2 2 2 /\ 0 < 2 /\
  exists r, forward ex_x ex_net = Some r.
Proof.
  split; [exact ex_x_shape|]. split; [exact ex_net_shaped|].
  split; [exact Nat.lt_0_2|].
  eexists.
  exact (@forward_computes_relu_softmax R R_scalar ex_net ex_x 2 2 2 2
           ex_x_shape ex_net_shaped Nat.lt_0_2).
Defined.

Lemma backward_computes_chain_rule_witness :
  has_shape ex_x 2 2 /\ has_shape ex_y 2 2 /\ params_shaped ex_net 2 2 2 /\
  0 < 2 /\
  exists y_pred net1 g,
    forward ex_x ex_net = Some (y_pred, net1) /\
    backward ex_x ex_y net1 = Some (g, net1).
Proof.
  split; [exact ex_x_shape|]. split; [exact ex_y_shape|].
  split; [exact ex_net_shaped|]. split; [exact Nat.lt_0_2|].
  destruct (@backward_computes_chain_rule R R_scalar ex_net ex_x ex_y 2 2 2 2
              ex_x_shape ex_y_shape ex_net_shaped Nat.lt_0_2)
    as (y_pred & zh & ah & zo & Hf & _ & _ & _ & Hb).
  eexists. eexists. eexists. split; [exact Hf | exact Hb].
Defined.

Lemma backward_leaves_state_witness :
  exists g net',
    backward ex_x ex_y (after_forward ex_net ex_x 2 2 2 2) = Some (g, net') /\
    net' = after_forward ex_net ex_x 2 2 2 2.
Proof.
  pose proof (@backward_body_after_forward R R_scalar ex_net ex_x ex_y 2 2 2 2
                eq_refl eq_refl eq_refl eq_refl ex_net_shaped) as Hb.
  cbv zeta in Hb.
  assert (H : exists g net',
             backward ex_x ex_y (after_forward ex_net ex_x 2 2 2 2)
             = Some (g, net')).
  { rewrite backward_run, Hb. eexists. eexists. reflexivity. }
  destruct H as (g & net' & H). exists g, net'.
  split; [exact H|].
  exact (proj1 (@backward_leaves_state R R_scalar _ _ ex_x ex_y g H)).
Defined.

Lemma forward_only_overwrites_cache_witness :
  exists y_pred net',
    forward ex_x ex_net = Some (y_pred, net') /\
    weights_input_to_hidden net' = weights_input_to_hidden ex_net /\
    learning_rate net' = learning_rate ex_net.
Proof.
  pose proof (@forward_shaped R R_scalar ex_net ex_x 2 2 2 2
                eq_refl eq_refl ex_net_shaped Nat.lt_0_2) as Hf.
  eexists. eexists. split; [exact Hf|].
  destruct (@forward_only_overwrites_cache R R_scalar _ _ ex_x _ Hf)
    as ((H1 & _ & _ & _ & H5) & _).
  split; [exact H1 | exact H5].
Defined.

Lemma train_runs_all_epochs_witness :
  has_shape ex_x 2 2 /\ has_shape ex_y 2 2 /\ params_shaped ex_net 2 2 2 /\
  0 < 2 /\
  exists losses out net',
    train ex_x ex_y 201 ex_net = Some ((losses, out), net') /\
    length losses = 201.
Proof.
  split; [exact ex_x_shape|]. split; [exact ex_y_shape|].
  split; [exact ex_net_shaped|]. split; [exact Nat.lt_0_2|].
  destruct (@train_runs_all_epochs R R_scalar ex_net ex_x ex_y 2 2 2 2 201
              ex_x_shape ex_y_shape ex_net_shaped Nat.lt_0_2)
    as (losses & net' & Ht & Hlen & _).
  eexists. eexists. eexists. split; [exact Ht | exact Hlen].
Defined.

(** ** Sums, maxima and argmax over the reals *)

Section RealFolds.
Local Open Scope R_scope.

Lemma bigsum_R_S (n : nat) (f : nat -> R) :
  bigsum (S n) f = bigsum n f + f n.
Proof. apply (@bigsum_S R R_scalar). Qed.

Lemma bigsum_R_le (n : nat) (f g : nat -> R) :
  (forall i, (i < n)%nat -> f i <= g i) -> bigsum n f <= bigsum n g.
Proof.
  induction n as [|n IH]; intros Hfg.
  - rewrite !bigsum_0. apply Rle_refl.
  - rewrite !bigsum_R_S. apply Rplus_le_compat.
    + apply IH. intros i Hi. apply Hfg. lia.
    + apply Hfg. lia.
Qed.


Lemma bigsum_R_zero (n : nat) (f : nat -> R) :
  (forall i, (i < n)%nat -> f i = 0) -> bigsum n f = 0.
Proof.
  induction n as [|n IH]; intros Hf.
  - reflexivity.
  - rewrite bigsum_R_S, IH, Hf by (intros; try apply Hf; lia). lra.
Qed.

Lemma bigsum_R_nonneg (n : nat) (f : nat -> R) :
  (forall i, (i < n)%nat -> 0 <= f i) -> 0 <= bigsum n f.
Proof.
  intros Hf. rewrite <- (@bigsum_R_zero n (fun _ => 0)) by reflexivity.
  apply bigsum_R_le. exact Hf.
Qed.

Lemma bigsum_R_pos (n : nat) (f : nat -> R) :
  (0 < n)%nat -> (forall i, (i < n)%nat -> 0 < f i) -> 0 < bigsum n f.
Proof.
  intros Hn Hf. destruct n as [|n]; [lia|].
  rewrite bigsum_R_S.
  assert (0 <= bigsum n f)
    by (apply bigsum_R_nonneg; intros i Hi; apply Rlt_le, Hf; lia).
  assert (0 < f n) by (apply Hf; lia). lra.
Qed.




Lemma fgt_R_true (a b : R) : fgt a b = true <-> a > b.
Proof.
  simpl. destruct (Rgt_dec a b) as [H|H]; split; intros H';
    solve [assumption | reflexivity | discriminate | contradiction].
Qed.

Lemma fgt_R_false (a b : R) : fgt a b = false <-> a <= b.
Proof.
  simpl. destruct (Rgt_dec a b) as [H|H]; split; intros H';
    solve [lra | reflexivity | discriminate].
Qed.

(** [argmax_upto] returns the first index of a maximal element. *)
Lemma argmax_upto_R (n : nat) (f : nat -> R) :
  (0 < n)%nat ->
  let a := argmax_upto n f in
  (a < n)%nat /\
  (forall j, (j < n)%nat -> f j <= f a) /\
  (forall j, (j < a)%nat -> f j < f a).
Proof.
  intros Hn. destruct n as [|n]; [lia|]. clear Hn.
  induction n as [|n IH].
  - cbv zeta. change (argmax_upto 1 f) with 0%nat.
    split; [lia|]. split.
    + intros j Hj. replace j with 0%nat by lia. apply Rle_refl.
    + intros j Hj. lia.
  - cbv zeta in *. rewrite argmax_upto_S.
    destruct IH as (Ha & Hmax & Hfirst).
    destruct (fgt (f (S n)) (f (argmax_upto (S n) f))) eqn:Hgt.
    + apply fgt_R_true in Hgt. split; [lia|]. split.
      * intros j Hj. destruct (Nat.eq_dec j (S n)) as [->|Hne];
          [apply Rle_refl|].
        assert (f j <= f (argmax_upto (S n) f)) by (apply Hmax; lia). lra.
      * intros j Hj.
        assert (f j <= f (argmax_upto (S n) f)) by (apply Hmax; lia). lra.
    + apply fgt_R_false in Hgt. split; [lia|]. split.
      * intros j Hj. destruct (Nat.eq_dec j (S n)) as [->|Hne];
          [exact Hgt|].
        apply Hmax. lia.
      * exact Hfirst.
Qed.

(** [bigmax] is an element of the row and bounds every element. *)
Lemma bigmax_R (n : nat) (f : nat -> R) :
  (0 < n)%nat ->
  (exists j, (j < n)%nat /\ bigmax n f = f j) /\
  (forall j, (j < n)%nat -> f j <= bigmax n f).
Proof.
  intros Hn. destruct n as [|n]; [lia|]. clear Hn.
  induction n as [|n IH].
  - change (bigmax 1 f) with (f 0%nat). split.
    + exists 0%nat. split; [lia | reflexivity].
    + intros j Hj. replace j with 0%nat by lia. apply Rle_refl.
  - rewrite bigmax_S. destruct IH as ((j0 & Hj0 & Heq) & Hub).
    change (@fmax R R_scalar) with Rmax. split.
    + destruct (Rmax_case (bigmax (S n) f) (f (S n))
                          (fun r => r = bigmax (S n) f \/ r = f (S n)))
        as [H|H]; [left; reflexivity | right; reflexivity | |].
      * exists j0. split; [lia|]. rewrite H. exact Heq.
      * exists (S n). split; [lia | exact H].
    + intros j Hj. destruct (Nat.eq_dec j (S n)) as [->|Hne].
      * apply Rmax_r.
      * apply Rle_trans with (bigmax (S n) f); [apply Hub; lia | apply Rmax_l].
Qed.
End RealFolds.

(** ** The rows that [forward] returns *)

Section RealClaims.
Local Open Scope R_scope.



End RealClaims.




(** ** The index that [predict] returns *)

(** [argmax] returns an index of the row. *)
Lemma argmax_upto_lt (F : Type) (SF : Scalar F) (n : nat) (f : nat -> F) :
  (0 < n)%nat -> (argmax_upto n f < n)%nat.
Proof.
  intros Hn. destruct n as [|n]; [lia|]. clear Hn.
  induction n as [|n IH]; [cbv; lia|].
  rewrite argmax_upto_S.
  destruct (fgt (f (S n)) (f (argmax_upto (S n) f))); lia.
Qed.

Section ArgmaxClaims.
Context {F : Type} {SF : Scalar F}.



End ArgmaxClaims.




(** ** The sign of the loss *)

Section LossClaims.
Local Open Scope R_scope.











End LossClaims.


(** ** The derivative of ReLU in the backward pass *)

Section ReluFacts.
Context {F : Type} {SF : Scalar F}.

Lemma get_relu_derivative (Z : ndarray F) (i j : nat) :
  i < nrows Z -> j < ncols Z ->
  get (relu_derivative Z) i j = relu' (get Z i j).
Proof.
  intros Hi Hj. unfold relu_derivative, nd_map.
  rewrite get_tabulate by assumption. reflexivity.
Qed.

(** The product with the derivative of ReLU, for any upstream gradient. *)
Lemma relu_gate (dA Z : ndarray F) (m h : nat) :
  nrows dA = m -> ncols dA = h -> nrows Z = m -> ncols Z = h ->
  broadcast2 fmul dA (relu_derivative Z) =
  Some (tabulate m h (fun i j => fmul (get dA i j) (relu' (get Z i j)))).
Proof.
  intros HAm HAh HZm HZh.
  rewrite (@broadcast2_same F SF fmul dA (relu_derivative Z) m h
             HAm HAh HZm HZh).
  f_equal. apply tabulate_ext. intros i j Hi Hj.
  rewrite get_relu_derivative by lia. reflexivity.
Qed.

(** After [forward], [backward] multiplies [da_hidden] entry by entry with
    the derivative of ReLU at the cached hidden pre-activation, and that
    derivative is 1.0 where the pre-activation is [> 0] and 0.0 elsewhere;
    so would it multiply any other upstream gradient of that shape. *)
Lemma relu_gate_after_forward
      (net : NeuralNetwork F) (x y : ndarray F) (m n h k : nat) :
  has_shape x m n -> has_shape y m k -> params_shaped net n h k -> 0 < k ->
  exists (y_pred : ndarray F) (net1 : NeuralNetwork F) (zh : ndarray F)
         (l : backward_locals F),
    forward x net = Some (y_pred, net1) /\
    z_hidden net1 = Some zh /\ has_shape zh m h /\
    backward_body x y net1 = Some (l, net1) /\
    broadcast2 fmul (da_hidden l) (relu_derivative zh) = Some (dz_hidden l) /\
    (forall i j, i < m -> j < h ->
       get (relu_derivative zh) i j
       = (if fgt (get zh i j) f0 then f1 else f0) /\
       get (dz_hidden l) i j
       = fmul (get (da_hidden l) i j) (get (relu_derivative zh) i j)) /\
    (forall dA : ndarray F, has_shape dA m h ->
       exists D, broadcast2 fmul dA (relu_derivative zh) = Some D /\
                 forall i j, i < m -> j < h ->
                   get D i j
                   = fmul (get dA i j) (get (relu_derivative zh) i j)).
Proof.
  intros (_ & Hxm & Hxn) (_ & Hym & Hyk) Hp Hk.
  pose proof (@forward_shaped F SF net x m n h k Hxm Hxn Hp Hk) as Hf.
  pose proof (@backward_body_after_forward F SF net x y m n h k
                Hxm Hxn Hym Hyk Hp) as Hb.
  cbv zeta in Hb.
  set (zh := tabulate m h (hidden_pre n x (weights_input_to_hidden net)
                             (bias_hidden net))) in *.
  set (ao := tabulate m k (output_act n h k x (weights_input_to_hidden net)
                             (bias_hidden net) (weights_hidden_to_output net)
                             (bias_output net))) in *.
  set (dA := dA_hidden k (get (weights_hidden_to_output net)) (get ao) (get y))
    in *.
  assert (Hentry : forall i j, i < m -> j < h ->
            get (tabulate m h (dZ_hidden k (get (weights_hidden_to_output net))
                                 (get zh) (get ao) (get y))) i j
            = fmul (get (tabulate m h dA) i j) (relu' (get zh i j))).
  { intros i j Hi Hj. rewrite !get_tabulate by assumption. reflexivity. }
  eexists. eexists. exists zh. eexists.
  split; [exact Hf|]. split; [reflexivity|].
  split; [apply has_shape_tabulate|].
  split; [exact Hb|]. cbn [da_hidden dz_hidden].
  split; [|split].
  - rewrite (@relu_gate (tabulate m h dA) zh m h eq_refl eq_refl eq_refl eq_refl).
    f_equal. apply tabulate_ext. intros i j Hi Hj.
    rewrite get_tabulate by assumption. reflexivity.
  - intros i j Hi Hj.
    rewrite (Hentry i j Hi Hj), get_relu_derivative by (simpl; assumption).
    split; reflexivity.
  - intros dA' (_ & HAm & HAh).
    eexists. split; [exact (@relu_gate dA' zh m h HAm HAh eq_refl eq_refl)|].
    intros i j Hi Hj. rewrite get_tabulate by assumption.
    rewrite get_relu_derivative by (simpl; assumption). reflexivity.
Qed.
End ReluFacts.

(** The product of a float and a zero: a zero when the float is finite,
    NaN when it is infinite or NaN. *)
Lemma b64_mul_zero (a z : float64) :
  b64_is_zero z = true ->
  (b64_is_finite a = true -> b64_is_zero (b64_mul a z) = true) /\
  (b64_is_finite a = false -> b64_mul a z = b64_nan).
Proof.
  intros Hz. destruct z as [sz|sz| |sz mz ez]; try discriminate Hz.
  destruct a as [sa|sa| |sa ma ea]; split; intros H;
    try discriminate H; reflexivity.
Qed.

(** A zero of either sign is not [> 0]. *)
Lemma b64_zero_not_positive (z : float64) :
  b64_is_zero z = true -> b64_gt z b64_zero = false.
Proof.
  intros Hz. destruct z as [sz|sz| |sz mz ez]; try discriminate Hz.
  reflexivity.
Qed.

(** C4, amended, in float64: the derivative of ReLU that [backward] uses
    is 1.0 where the cached hidden pre-activation is [> 0] and 0.0
    elsewhere, and [dz_hidden] is the entrywise product of [da_hidden] with
    it.  Where the pre-activation is exactly 0 the derivative is 0.0 and
    the entry of [dz_hidden] is the upstream entry times 0.0: a zero when
    the upstream entry is finite, NaN when it is infinite or NaN.  The same
    holds for the product of any upstream gradient of that shape. *)
Theorem relu_derivative_is_zero_at_zero
        (libm_exp libm_log : float64 -> float64)
        (net : NeuralNetwork float64) (x y : ndarray float64)
        (m n h k : nat) :
  let SF := float64_scalar libm_exp libm_log in
  has_shape x m n -> has_shape y m k -> params_shaped net n h k -> 0 < k ->
  exists (y_pred : ndarray float64) (net1 : NeuralNetwork float64)
         (zh : ndarray float64) (l : backward_locals float64),
    forward x net = Some (y_pred, net1) /\
    z_hidden net1 = Some zh /\ has_shape zh m h /\
    backward_body x y net1 = Some (l, net1) /\
    broadcast2 fmul (da_hidden l) (relu_derivative zh) = Some (dz_hidden l) /\
    (forall i j, i < m -> j < h ->
       get (relu_derivative zh) i j
       = (if b64_gt (get zh i j) b64_zero then b64_one else b64_zero) /\
       get (dz_hidden l) i j
       = b64_mul (get (da_hidden l) i j) (get (relu_derivative zh) i j) /\
       (b64_is_zero (get zh i j) = true ->
        get (relu_derivative zh) i j = b64_zero /\
        (b64_is_finite (get (da_hidden l) i j) = true ->
         b64_is_zero (get (dz_hidden l) i j) = true) /\
        (b64_is_finite (get (da_hidden l) i j) = false ->
         get (dz_hidden l) i j = b64_nan))) /\
    (forall dA : ndarray float64, has_shape dA m h ->
       exists D, broadcast2 fmul dA (relu_derivative zh) = Some D /\
                 forall i j, i < m -> j < h ->
                   b64_is_zero (get zh i j) = true ->
                   (b64_is_finite (get dA i j) = true ->
                    b64_is_zero (get D i j) = true) /\
                   (b64_is_finite (get dA i j) = false ->
                    get D i j = b64_nan)).
Proof.
  intros SF Hx Hy Hp Hk.
  destruct (@relu_gate_after_forward float64 SF net x y m n h k Hx Hy Hp Hk)
    as (y_pred & net1 & zh & l & Hf & Hz & Hzs & Hb & Hgate & Hent & Hany).
  exists y_pred, net1, zh, l.
  split; [exact Hf|]. split; [exact Hz|]. split; [exact Hzs|].
  split; [exact Hb|]. split; [exact Hgate|].
  assert (Hzero : forall i j, i < m -> j < h ->
            b64_is_zero (get zh i j) = true ->
            get (relu_derivative zh) i j = b64_zero).
  { intros i j Hi Hj H0. rewrite (proj1 (Hent i j Hi Hj)).
    cbn [fgt f0 f1 SF float64_scalar].
    rewrite (b64_zero_not_positive _ H0). reflexivity. }
  split.
  - intros i j Hi Hj. destruct (Hent i j Hi Hj) as (Hd & Hprod).
    split; [exact Hd|]. split; [exact Hprod|].
    intros H0. split; [exact (Hzero i j Hi Hj H0)|].
    rewrite Hprod, (Hzero i j Hi Hj H0).
    exact (b64_mul_zero (get (da_hidden l) i j) b64_zero eq_refl).
  - intros dA HdA. destruct (Hany dA HdA) as (D & HD & HDent).
    exists D. split; [exact HD|].
    intros i j Hi Hj H0. rewrite (HDent i j Hi Hj), (Hzero i j Hi Hj H0).
    exact (b64_mul_zero (get dA i j) b64_zero eq_refl).
Qed.

Lemma steep_net_shaped : params_shaped steep_net 1 1 3.
Proof. repeat split; repeat constructor. Defined.

Lemma relu_derivative_is_zero_at_zero_witness :
  has_shape zero_x 1 1 /\ has_shape first_y 1 3 /\
  params_shaped steep_net 1 1 3 /\ 0 < 3 /\
  forall libm_exp libm_log : float64 -> float64,
    let SF := float64_scalar libm_exp libm_log in
    exists zh net1 l,
      z_hidden net1 = Some zh /\
      backward_body zero_x first_y net1 = Some (l, net1) /\
      get (dz_hidden l) 0 0
      = b64_mul (get (da_hidden l) 0 0) (get (relu_derivative zh) 0 0).
Proof.
  assert (Hx : has_shape zero_x 1 1) by (repeat split; repeat constructor).
  assert (Hy : has_shape first_y 1 3) by (repeat split; repeat constructor).
  split; [exact Hx|]. split; [exact Hy|].
  split; [exact steep_net_shaped|]. split; [lia|].
  intros libm_exp libm_log SF.
  destruct (@relu_derivative_is_zero_at_zero libm_exp libm_log steep_net
              zero_x first_y 1 1 1 3 Hx Hy steep_net_shaped
              (Nat.lt_0_succ 2))
    as (y_pred & net1 & zh & l & _ & Hz & _ & Hb & _ & Hent & _).
  exists zh, net1, l.
  split; [exact Hz|]. split; [exact Hb|].
  exact (proj1 (proj2 (Hent 0 0 Nat.lt_0_1 Nat.lt_0_1))).
Defined.

(** C4 fails as stated, in float64: with the finite parameters of
    [steep_net], the input 0 and the label of class 0, the hidden
    pre-activation is exactly 0, the upstream gradient [da_hidden]
    overflows to infinity, and the entry of [dz_hidden] is
    infinity * 0.0 = NaN, not 0.  No finite value of exp or log is used. *)
Lemma dz_hidden_is_nan_at_zero :
  all_finite zero_x = true /\ all_finite first_y = true /\
  finite_params steep_net = true /\
  exists (y_pred : ndarray float64) (net1 : NeuralNetwork float64)
         (zh : ndarray float64) (l : backward_locals float64),
    forall libm_exp libm_log : float64 -> float64,
      let SF := float64_scalar libm_exp libm_log in
      forward zero_x steep_net = Some (y_pred, net1) /\
      z_hidden net1 = Some zh /\
      get zh 0 0 = b64_zero /\
      backward_body zero_x first_y net1 = Some (l, net1) /\
      get (da_hidden l) 0 0 = b64_inf /\
      get (dz_hidden l) 0 0 = b64_nan /\
      b64_is_zero (get (dz_hidden l) 0 0) = false.
Proof.
  split; [reflexivity|]. split; [reflexivity|]. split; [reflexivity|].
  eexists. eexists. eexists. eexists. intros libm_exp libm_log SF.
  split; [vm_compute; reflexivity|].
  split; [vm_compute; reflexivity|].
  split; [vm_compute; reflexivity|].
  split; [vm_compute; reflexivity|].
  repeat split; vm_compute; reflexivity.
Qed.

(** * Further properties of the code *)

(** ** What a parameter update and a whole training keep *)

Section FrameFacts.
Context {F : Type} {SF : Scalar F}.

Lemma isub_shape (A B C : ndarray F) :
  isub A B = Some C -> nrows C = nrows A /\ ncols C = ncols A.
Proof.
  unfold isub. destruct (broadcast2 fsub A B) as [D|]; [|discriminate].
  destruct (nrows D =? nrows A) eqn:Hr; [|discriminate].
  destruct (ncols D =? ncols A) eqn:Hc; [|discriminate].
  simpl. intros H. inversion H; subst.
  apply Nat.eqb_eq in Hr. apply Nat.eqb_eq in Hc. split; assumption.
Qed.

Lemma same_shapes_refl (net : NeuralNetwork F) : same_shapes net net.
Proof. repeat split. Qed.

Lemma same_shapes_trans (a b c : NeuralNetwork F) :
  same_shapes a b -> same_shapes b c -> same_shapes a c.
Proof.
  unfold same_shapes.
  intros (A1 & A2 & A3 & A4 & A5 & A6 & A7 & A8 & A9)
         (B1 & B2 & B3 & B4 & B5 & B6 & B7 & B8 & B9).
  repeat split; congruence.
Qed.

(** Whatever the shapes of the gradients, an update that does not raise
    leaves every parameter with its shape, and does not touch the learning
    rate or the cache. *)
Lemma update_parameters_frame (net net' : NeuralNetwork F)
      (dw_ih db_h dw_ho db_o : ndarray F) (u : unit) :
  update_parameters dw_ih db_h dw_ho db_o net = Some (u, net') ->
  same_shapes net net' /\
  z_hidden net' = z_hidden net /\ a_hidden net' = a_hidden net /\
  z_output net' = z_output net /\ a_output net' = a_output net.
Proof.
  unfold update_parameters.
  rewrite !bind_gets. unfold bind at 1. unfold lift at 1.
  destruct (isub (weights_input_to_hidden net) _) as [w1|] eqn:H1;
    [|discriminate].
  rewrite bind_modify, !bind_gets. cbn [learning_rate bias_hidden
    set_weights_input_to_hidden].
  unfold bind at 1. unfold lift at 1.
  destruct (isub (bias_hidden net) _) as [b1|] eqn:H2; [|discriminate].
  rewrite bind_modify, !bind_gets. cbn [learning_rate weights_hidden_to_output
    set_bias_hidden set_weights_input_to_hidden].
  unfold bind at 1. unfold lift at 1.
  destruct (isub (weights_hidden_to_output net) _) as [w2|] eqn:H3;
    [|discriminate].
  rewrite bind_modify, !bind_gets. cbn [learning_rate bias_output
    set_weights_hidden_to_output set_bias_hidden set_weights_input_to_hidden].
  unfold bind at 1. unfold lift at 1.
  destruct (isub (bias_output net) _) as [b2|] eqn:H4; [|discriminate].
  unfold modify. intros H. inversion H; subst. clear H.
  apply isub_shape in H1, H2, H3, H4.
  destruct H1, H2, H3, H4.
  unfold same_shapes; cbn. repeat split; assumption.
Qed.

Lemma forward_same_shapes (x y_pred : ndarray F) (net net' : NeuralNetwork F) :
  forward x net = Some (y_pred, net') -> same_shapes net net'.
Proof.
  rewrite forward_run.
  destruct (forward_values net x) as [[[[zh ah] zo] ao]|]; [|discriminate].
  intros H. inversion H; subst. repeat split.
Qed.

Lemma backward_state (x y : ndarray F) (net net' : NeuralNetwork F)
      (g : ndarray F * ndarray F * ndarray F * ndarray F) :
  backward x y net = Some (g, net') -> net' = net.
Proof.
  rewrite backward_run.
  destruct (backward_body x y net) as [[l s]|] eqn:Hb; [|discriminate].
  intros H. inversion H; subst. exact (backward_body_state _ _ _ Hb).
Qed.

Lemma epoch_result_same_shapes (x y : ndarray F) (net net' : NeuralNetwork F)
      (loss : F) :
  epoch_result x y net = Some (loss, net') -> same_shapes net net'.
Proof.
  intros H. apply epoch_result_inv in H.
  destruct H as (yp & net1 & g1 & g2 & g3 & g4 & net2 & Hf & _ & Hb & Hu).
  apply forward_same_shapes in Hf. apply backward_state in Hb. subst net2.
  apply update_parameters_frame in Hu. destruct Hu as [Hu _].
  exact (same_shapes_trans Hf Hu).
Qed.

Lemma epochs_run_same_shapes (x y : ndarray F) (e : nat) :
  forall (net net' : NeuralNetwork F) (losses : list F),
    epochs_run x y e net = Some (losses, net') -> same_shapes net net'.
Proof.
  induction e as [|e IH]; intros net net' losses; simpl.
  - intros H. inversion H; subst. apply same_shapes_refl.
  - destruct (epochs_run x y e net) as [[ls n1]|] eqn:He; [|discriminate].
    destruct (epoch_result x y n1) as [[l n2]|] eqn:Hr; [|discriminate].
    intros H. inversion H; subst.
    exact (same_shapes_trans (IH _ _ _ He) (epoch_result_same_shapes _ _ _ Hr)).
Qed.

(** X2: the in-place update keeps the shape of the four parameters, the
    learning rate and the cache, whatever the shapes of the gradients it is
    given (a gradient that broadcasts to a parameter is accepted; one that
    does not raises). *)
Theorem update_parameters_keeps_shapes
        (net net' : NeuralNetwork F) (dw_ih db_h dw_ho db_o : ndarray F)
        (u : unit) :
  update_parameters dw_ih db_h dw_ho db_o net = Some (u, net') ->
  same_shapes net net' /\
  z_hidden net' = z_hidden net /\ a_hidden net' = a_hidden net /\
  z_output net' = z_output net /\ a_output net' = a_output net.
Proof. apply update_parameters_frame. Qed.

(** X13: a training run that does not raise ends with parameters of the
    shapes it started with and with the same learning rate. *)
Theorem train_keeps_shapes_and_rate
        (x y : ndarray F) (epochs : nat) (net net' : NeuralNetwork F)
        (r : list F * list (event F)) :
  train x y epochs net = Some (r, net') -> same_shapes net net'.
Proof.
  rewrite train_run.
  destruct (epochs_run x y epochs net) as [[ls n1]|] eqn:He; [|discriminate].
  intros H. inversion H; subst.
  exact (epochs_run_same_shapes _ _ _ _ He).
Qed.

(** X1: with gradients of the shapes of the parameters,
    [update_parameters] replaces every entry of every parameter by
    parameter - learning_rate * gradient and changes nothing else. *)
Theorem update_parameters_descends
        (net : NeuralNetwork F) (dw_ih db_h dw_ho db_o : ndarray F)
        (n h k : nat) :
  params_shaped net n h k ->
  has_shape dw_ih n h -> has_shape db_h 1 h ->
  has_shape dw_ho h k -> has_shape db_o 1 k ->
  exists net' : NeuralNetwork F,
    update_parameters dw_ih db_h dw_ho db_o net = Some (tt, net') /\
    params_shaped net' n h k /\
    learning_rate net' = learning_rate net /\
    z_hidden net' = z_hidden net /\ a_hidden net' = a_hidden net /\
    z_output net' = z_output net /\ a_output net' = a_output net /\
    (forall i j, i < n -> j < h ->
       get (weights_input_to_hidden net') i j =
       fsub (get (weights_input_to_hidden net) i j)
            (fmul (learning_rate net) (get dw_ih i j))) /\
    (forall j, j < h ->
       get (bias_hidden net') 0 j =
       fsub (get (bias_hidden net) 0 j)
            (fmul (learning_rate net) (get db_h 0 j))) /\
    (forall i j, i < h -> j < k ->
       get (weights_hidden_to_output net') i j =
       fsub (get (weights_hidden_to_output net) i j)
            (fmul (learning_rate net) (get dw_ho i j))) /\
    (forall j, j < k ->
       get (bias_output net') 0 j =
       fsub (get (bias_output net) 0 j)
            (fmul (learning_rate net) (get db_o 0 j))).
Proof.
  intros Hp (_ & G1 & G2) (_ & G3 & G4) (_ & G5 & G6) (_ & G7 & G8).
  exists (updated net dw_ih db_h dw_ho db_o).
  split; [exact (@update_parameters_shaped _ _ net dw_ih db_h dw_ho db_o n h k
                   Hp G1 G2 G3 G4 G5 G6 G7 G8)|].
  split; [apply params_shaped_updated; exact Hp|].
  destruct Hp as ((_ & H1 & H2) & (_ & H3 & H4) & (_ & H5 & H6) & (_ & H7 & H8)).
  do 5 (split; [reflexivity|]).
  unfold updated, descend; cbn [weights_input_to_hidden bias_hidden
    weights_hidden_to_output bias_output].
  rewrite H1, H2, H3, H4, H5, H6, H7, H8.
  repeat split; intros; rewrite get_tabulate by lia; reflexivity.
Qed.
End FrameFacts.

(** ** When the passes raise *)

Section ErrorFacts.
Context {F : Type} {SF : Scalar F}.

Lemma forward_values_wrong_width (x : ndarray F) (net : NeuralNetwork F) :
  ncols x <> nrows (weights_input_to_hidden net) ->
  forward_values net x = None.
Proof.
  intros Hne. unfold forward_values, np_dot.
  destruct (Nat.eqb_spec (ncols x) (nrows (weights_input_to_hidden net)));
    [contradiction | reflexivity].
Qed.

Lemma epoch_result_wrong_width (x y : ndarray F) (net : NeuralNetwork F) :
  ncols x <> nrows (weights_input_to_hidden net) ->
  epoch_result x y net = None.
Proof.
  intros Hne. unfold epoch_result.
  rewrite forward_run, (forward_values_wrong_width _ _ Hne). reflexivity.
Qed.

(** X5: a batch whose number of columns is not the number of rows of the
    input weights makes [forward] raise (in its first [np.dot]), and with it
    [predict] and every [train] of at least one epoch. *)
Theorem wrong_width_raises (x : ndarray F) (net : NeuralNetwork F) :
  ncols x <> nrows (weights_input_to_hidden net) ->
  forward x net = None /\
  predict x net = None /\
  forall (y : ndarray F) (e : nat), train x y (S e) net = None.
Proof.
  intros Hne.
  split; [rewrite forward_run, (forward_values_wrong_width _ _ Hne);
          reflexivity|].
  split; [rewrite predict_run, (forward_values_wrong_width _ _ Hne);
          reflexivity|].
  intros y e. rewrite train_run. simpl.
  destruct (epochs_run x y e net) as [[ls n1]|] eqn:He; [|reflexivity].
  pose proof (epochs_run_same_shapes _ _ _ _ He) as (Hrows & _).
  rewrite epoch_result_wrong_width by (rewrite Hrows; exact Hne).
  reflexivity.
Qed.

(** X6: a network without output units cannot run a forward pass: the
    maximum of an empty row raises, for every batch, also an empty one. *)
Theorem no_output_unit_raises
        (x : ndarray F) (net : NeuralNetwork F) (m n h : nat) :
  has_shape x m n -> params_shaped net n h 0 ->
  forward x net = None /\ predict x net = None.
Proof.
  intros (_ & Hm & Hn)
         ((_ & H1 & H2) & (_ & H3 & H4) & (_ & H5 & H6) & (_ & H7 & H8)).
  assert (Hv : forward_values net x = None).
  { unfold forward_values.
    rewrite (@np_dot_shaped _ _ x _ m n h Hm Hn H1 H2).
    rewrite (@broadcast2_row _ _ fadd _ _ m h) by (assumption || reflexivity).
    rewrite (@np_dot_shaped _ _ _ _ m h 0) by (assumption || reflexivity).
    rewrite (@broadcast2_row _ _ fadd _ _ m 0) by (assumption || reflexivity).
    reflexivity. }
  split; [rewrite forward_run, Hv | rewrite predict_run, Hv]; reflexivity.
Qed.

(** X4: [backward] reads three attributes that only [forward] assigns;
    while one of them is missing it raises, whatever its arguments. *)
Theorem backward_raises_without_forward
        (x y : ndarray F) (net : NeuralNetwork F) :
  a_output net = None \/ a_hidden net = None \/ z_hidden net = None ->
  backward x y net = None.
Proof.
  intros Hmiss. rewrite backward_run.
  assert (Hb : backward_body x y net = None); [|rewrite Hb; reflexivity].
  unfold backward_body, bind, attr, lift, gets, ret.
  destruct (a_output net) as [ao|]; [|reflexivity].
  destruct (broadcast2 fsub ao y) as [dz|]; [|reflexivity].
  destruct (a_hidden net) as [ah|]; [|reflexivity].
  destruct (np_dot (np_T ah) dz) as [d1|]; [|reflexivity].
  destruct (np_dot dz (np_T (weights_hidden_to_output net))) as [d2|];
    [|reflexivity].
  destruct (z_hidden net) as [zh|]; [|reflexivity].
  destruct Hmiss as [H|[H|H]]; discriminate.
Qed.
End ErrorFacts.

Lemma wrong_width_raises_witness :
  ncols (mk_ndarray 1 3 [[1; 2; 3]]%R) <> nrows (weights_input_to_hidden ex_net)
  /\ forward (mk_ndarray 1 3 [[1; 2; 3]]%R) ex_net = None.
Proof.
  assert (H : ncols (mk_ndarray 1 3 [[1; 2; 3]]%R)
              <> nrows (weights_input_to_hidden ex_net))
    by (simpl; discriminate).
  split; [exact H|].
  exact (proj1 (@wrong_width_raises R R_scalar _ ex_net H)).
Defined.

Lemma no_class_net_shaped : params_shaped no_class_net 2 2 0.
Proof. repeat split; repeat constructor. Defined.

Lemma no_output_unit_raises_witness :
  has_shape ex_x 2 2 /\ params_shaped no_class_net 2 2 0 /\
  forward ex_x no_class_net = None.
Proof.
  split; [exact ex_x_shape|]. split; [exact no_class_net_shaped|].
  exact (proj1 (@no_output_unit_raises R R_scalar ex_x no_class_net 2 2 2
                  ex_x_shape no_class_net_shaped)).
Defined.

Lemma backward_raises_without_forward_witness :
  a_output (init 4 20 3 None (fun _ _ => 0%R) (fun _ _ => 0%R)) = None /\
  backward ex_x ex_y (init 4 20 3 None (fun _ _ => 0%R) (fun _ _ => 0%R))
  = None.
Proof.
  split; [reflexivity|].
  apply (@backward_raises_without_forward R R_scalar ex_x ex_y
           (init 4 20 3 None (fun _ _ => 0%R) (fun _ _ => 0%R))).
  left. reflexivity.
Defined.

Lemma update_parameters_keeps_shapes_witness :
  exists net',
    update_parameters ex_y (mk_ndarray 1 2 [[1; 1]]%R) ex_y
                      (mk_ndarray 1 2 [[1; 1]]%R) ex_net = Some (tt, net') /\
    same_shapes ex_net net'.
Proof.
  pose proof (@update_parameters_shaped R R_scalar ex_net ex_y
                (mk_ndarray 1 2 [[1; 1]]%R) ex_y (mk_ndarray 1 2 [[1; 1]]%R)
                2 2 2 ex_net_shaped eq_refl eq_refl eq_refl eq_refl
                eq_refl eq_refl eq_refl eq_refl) as Hu.
  eexists. split; [exact Hu|].
  exact (proj1 (@update_parameters_keeps_shapes R R_scalar _ _ _ _ _ _ _ Hu)).
Defined.

Lemma update_parameters_descends_witness :
  params_shaped ex_net 2 2 2 /\ has_shape ex_y 2 2 /\
  has_shape (mk_ndarray 1 2 [[1; 1]]%R) 1 2 /\
  exists net',
    update_parameters ex_y (mk_ndarray 1 2 [[1; 1]]%R) ex_y
                      (mk_ndarray 1 2 [[1; 1]]%R) ex_net = Some (tt, net') /\
    learning_rate net' = learning_rate ex_net.
Proof.
  assert (Hb : has_shape (mk_ndarray 1 2 [[1; 1]]%R) 1 2)
    by (repeat split; repeat constructor).
  split; [exact ex_net_shaped|]. split; [exact ex_y_shape|].
  split; [exact Hb|].
  destruct (@update_parameters_descends R R_scalar ex_net ex_y _ ex_y _ 2 2 2
              ex_net_shaped ex_y_shape Hb ex_y_shape Hb)
    as (net' & Hu & _ & Hlr & _).
  exists net'. split; [exact Hu | exact Hlr].
Defined.

Lemma train_keeps_shapes_and_rate_witness :
  exists r net',
    train ex_x ex_y 3 ex_net = Some (r, net') /\ same_shapes ex_net net'.
Proof.
  destruct (@epochs_run_shaped R R_scalar ex_x ex_y 2 2 2 2
              eq_refl eq_refl eq_refl eq_refl Nat.lt_0_2 3 ex_net ex_net_shaped)
    as (ls & n1 & He & _).
  assert (Ht : exists r net', train ex_x ex_y 3 ex_net = Some (r, net')).
  { rewrite train_run, He. eexists. eexists. reflexivity. }
  destruct Ht as (r & net' & Ht). exists r, net'.
  split; [exact Ht|].
  exact (@train_keeps_shapes_and_rate R R_scalar _ _ _ _ _ _ Ht).
Defined.

(** ** The plot at the end of [train] *)

Section PlotFacts.

Lemma ceil_div_S (n s : nat) :
  0 < s ->
  (S n + (s - 1)) / s =
  (if n mod s =? 0 then S ((n + (s - 1)) / s) else (n + (s - 1)) / s) /\
  (n mod s = 0 -> (n + (s - 1)) / s * s = n).
Proof.
  intros Hs.
  pose proof (Nat.div_mod_eq n s) as Hn.
  pose proof (Nat.mod_upper_bound n s ltac:(lia)) as Hr.
  set (a := n / s) in *. set (r := n mod s) in *.
  destruct (Nat.eqb_spec r 0) as [H0|Hne].
  - assert (Hq : (n + (s - 1)) / s = a).
    { symmetry. apply (Nat.div_unique _ _ _ (s - 1)); [lia|]. nia. }
    assert (Hq' : (S n + (s - 1)) / s = S a).
    { symmetry. apply (Nat.div_unique _ _ _ 0); [lia|]. nia. }
    rewrite Hq, Hq'. split; [reflexivity|]. intros _. nia.
  - assert (Hq : (n + (s - 1)) / s = S a).
    { symmetry. apply (Nat.div_unique _ _ _ (r - 1)); [lia|]. nia. }
    assert (Hq' : (S n + (s - 1)) / s = S a).
    { symmetry. apply (Nat.div_unique _ _ _ r); [lia|]. nia. }
    rewrite Hq, Hq'. split; [reflexivity|]. intros H. contradiction.
Qed.

(** [range(0, n, s)] lists the multiples of [s] below [n]. *)
Lemma range_step_filter (n s : nat) :
  0 < s ->
  range_step n s = filter (fun i => i mod s =? 0) (seq 0 n).
Proof.
  intros Hs. induction n as [|n IH].
  - unfold range_step. rewrite Nat.add_0_l, Nat.div_small by lia. reflexivity.
  - rewrite seq_S, filter_app, Nat.add_0_l, <- IH.
    assert (Hlast : filter (fun i => i mod s =? 0) [n]
                    = if n mod s =? 0 then [n] else [])
      by reflexivity.
    rewrite Hlast; clear Hlast.
    destruct (ceil_div_S n Hs) as [Hq Hmul].
    unfold range_step. rewrite Hq.
    destruct (Nat.eqb_spec (n mod s) 0) as [H0|Hne].
    + rewrite seq_S, map_app, Nat.add_0_l. cbn [map].
      rewrite (Hmul H0). reflexivity.
    + rewrite app_nil_r. reflexivity.
Qed.

Lemma slice_filter_from (A : Type) (P : nat -> bool) (d : A) (l : list A) :
  forall a,
    map snd (filter (fun p => P (fst p)) (combine (seq a (length l)) l))
    = map (fun i => nth (i - a) l d) (filter P (seq a (length l))).
Proof.
  induction l as [|x l IH]; intros a; [reflexivity|].
  cbn [length seq combine filter fst].
  assert (Hrest : map (fun i => nth (i - a) (x :: l) d)
                      (filter P (seq (S a) (length l)))
                  = map (fun i => nth (i - S a) l d)
                      (filter P (seq (S a) (length l)))).
  { apply map_ext_in. intros i Hi. apply filter_In in Hi.
    destruct Hi as [Hi _]. apply in_seq in Hi.
    replace (i - a) with (S (i - S a)) by lia. reflexivity. }
  destruct (P a); cbn [map snd].
  - rewrite Hrest, IH, Nat.sub_diag. reflexivity.
  - rewrite Hrest, IH. reflexivity.
Qed.

(** [l[::s]] lists the entries of [l] at the multiples of [s]. *)
Lemma slice_step_filter (A : Type) (d : A) (s : nat) (l : list A) :
  slice_step s l
  = map (fun i => nth i l d) (filter (fun i => i mod s =? 0) (seq 0 (length l))).
Proof.
  unfold slice_step.
  rewrite (@slice_filter_from A (fun i => i mod s =? 0) d l 0).
  apply map_ext. intros i. rewrite Nat.sub_0_r. reflexivity.
Qed.

Lemma combine_map_r (A B : Type) (g : A -> B) (l : list A) :
  combine l (map g l) = map (fun a => (a, g a)) l.
Proof.
  induction l as [|a l IH]; [reflexivity|]. simpl. rewrite IH. reflexivity.
Qed.

Lemma range_step_nth (n s q : nat) :
  q < length (range_step n s) -> nth q (range_step n s) 0 = q * s.
Proof.
  unfold range_step. rewrite length_map, length_seq. intros Hq.
  rewrite (nth_indep _ 0 (0 * s))
    by (rewrite length_map, length_seq; exact Hq).
  rewrite (map_nth (fun q => q * s)), seq_nth by exact Hq. reflexivity.
Qed.

Context {F : Type} {SF : Scalar F}.

(** X12: the events of a training run are the printed lines followed by
    one plot, and the points of the plot are exactly the printed pairs
    (epoch, loss): the x values are the multiples of 100 below [epochs] and
    the y value at 100 q is the loss of epoch 100 q. *)
Theorem plot_shows_printed_lines
        (x y : ndarray F) (epochs : nat) (net net' : NeuralNetwork F)
        (losses : list F) (out : list (event F)) :
  train x y epochs net = Some ((losses, out), net') ->
  exists (xs : list nat) (ys : list F),
    out = map (fun p => Print (fst p) (snd p)) (combine xs ys) ++ [Plot xs ys] /\
    length xs = length ys /\
    length xs = (epochs + 99) / 100 /\
    forall q, q < length xs ->
              nth q xs 0 = q * 100 /\ nth q ys f0 = nth (q * 100) losses f0.
Proof.
  rewrite train_run.
  destruct (epochs_run x y epochs net) as [[ls n1]|] eqn:He; [|discriminate].
  intros H. inversion H; subst. clear H.
  pose proof (@epochs_run_length _ _ x y epochs net net' losses He) as Hlen.
  exists (range_step epochs 100), (slice_step 100 losses).
  assert (Hys : slice_step 100 losses
                = map (fun i => nth i losses f0) (range_step epochs 100)).
  { rewrite (slice_step_filter f0), Hlen, range_step_filter by lia.
    reflexivity. }
  split.
  - f_equal. rewrite Hys, combine_map_r, map_map. cbn [fst snd].
    unfold progress_lines. rewrite range_step_filter by lia. reflexivity.
  - split; [rewrite Hys, length_map; reflexivity|].
    split; [unfold range_step; rewrite length_map, length_seq; reflexivity|].
    intros q Hq. split; [apply range_step_nth; exact Hq|].
    rewrite Hys.
    rewrite (nth_indep _ f0 (nth 0 losses f0))
      by (rewrite length_map; exact Hq).
    rewrite (map_nth (fun i => nth i losses f0)).
    rewrite range_step_nth by exact Hq. reflexivity.
Qed.
End PlotFacts.

Lemma plot_shows_printed_lines_witness :
  exists losses out net' xs ys,
    train ex_x ex_y 201 ex_net = Some ((losses, out), net') /\
    out = map (fun p => Print (fst p) (snd p)) (combine xs ys) ++ [Plot xs ys] /\
    length xs = 3.
Proof.
  destruct (@epochs_run_shaped R R_scalar ex_x ex_y 2 2 2 2
              eq_refl eq_refl eq_refl eq_refl Nat.lt_0_2 201 ex_net
              ex_net_shaped)
    as (ls & n1 & He & _).
  assert (Ht : exists out, train ex_x ex_y 201 ex_net = Some ((ls, out), n1)).
  { rewrite train_run, He. eexists. reflexivity. }
  destruct Ht as (out & Ht).
  destruct (@plot_shows_printed_lines R R_scalar _ _ _ _ _ _ _ Ht)
    as (xs & ys & Hout & _ & Hlen & _).
  exists ls, out, n1, xs, ys.
  split; [exact Ht|]. split; [exact Hout | exact Hlen].
Defined.

(** ** The stable softmax is the softmax *)

Section SoftmaxFacts.
Local Open Scope R_scope.

Lemma bigsum_R_mul_r (n : nat) (f : nat -> R) (s : R) :
  bigsum n (fun i => f i * s) = bigsum n f * s.
Proof.
  induction n as [|n IH].
  - rewrite !bigsum_0. simpl. lra.
  - rewrite !bigsum_R_S, IH. lra.
Qed.

(** Subtracting the maximum of the row does not change the value. *)
Lemma softmax_mat_plain (k : nat) (Z : mat) (i j : nat) :
  (0 < k)%nat ->
  softmax_mat k Z i j = exp (Z i j) / bigsum k (fun c => exp (Z i c)).
Proof.
  intros Hk. unfold softmax_mat. cbv zeta. cbn [fdiv fexp fsub R_scalar].
  set (mx := bigmax k (Z i)).
  assert (Hshift : forall c, exp (Z i c - mx) = exp (Z i c) * exp (- mx)).
  { intros c. rewrite <- exp_plus. f_equal. }
  rewrite (@bigsum_ext R R_scalar k (fun c => exp (Z i c - mx))
             (fun c => exp (Z i c) * exp (- mx)))
    by (intros c _; apply Hshift).
  rewrite bigsum_R_mul_r, Hshift.
  assert (HS : 0 < bigsum k (fun c => exp (Z i c)))
    by (apply bigsum_R_pos; [exact Hk | intros c _; apply exp_pos]).
  pose proof (exp_pos (- mx)) as He.
  field. split; lra.
Qed.

(** X7: [softmax], which subtracts the maximum of each row before it
    exponentiates, returns exactly exp(z_j) / sum_c exp(z_c) for every row
    (in exact arithmetic); it raises only on an array without columns. *)
Theorem softmax_is_plain_softmax (Z : ndarray R) (m k : nat) :
  has_shape Z m k -> (0 < k)%nat ->
  softmax Z =
  Some (tabulate m k (fun i j =>
          exp (get Z i j) / bigsum k (fun c => exp (get Z i c)))).
Proof.
  intros (_ & Hm & Hk) Hpos.
  rewrite (@softmax_shaped R R_scalar Z m k Hm Hk Hpos). f_equal.
  apply tabulate_ext. intros i j _ _. apply softmax_mat_plain. exact Hpos.
Qed.
End SoftmaxFacts.

Lemma softmax_is_plain_softmax_witness :
  has_shape ex_x 2 2 /\ 0 < 2 /\ exists P, softmax ex_x = Some P.
Proof.
  split; [exact ex_x_shape|]. split; [exact Nat.lt_0_2|].
  eexists. exact (@softmax_is_plain_softmax ex_x 2 2 ex_x_shape Nat.lt_0_2).
Defined.

(** The labels of the example batch are one-hot. *)
Lemma ex_y_one_hot : one_hot ex_y 2 2.
Proof.
  split; [exact ex_y_shape|].
  intros i Hi. destruct i as [|[|i]]; [| |lia].
  - exists 0. split; [lia|]. split; [reflexivity|].
    intros c Hc Hne. replace c with 1 by lia. reflexivity.
  - exists 1. split; [lia|]. split; [reflexivity|].
    intros c Hc Hne. replace c with 0 by lia. reflexivity.
Defined.

(** ** The constructor *)

Section InitFacts.
Local Open Scope R_scope.

(** X3: the constructor builds weights of the given sizes whose entries
    are 0.01 times the random draws, hence in [0, 0.01) for draws in [0, 1);
    the biases are zero, the learning rate is the argument (0.01 when it is
    left out) and the cached attributes do not exist yet. *)
Theorem init_gives_small_weights
        (n h k : nat) (lr : option R) (rand_ih rand_ho : nat -> nat -> R) :
  (forall i j, 0 <= rand_ih i j < 1) ->
  (forall i j, 0 <= rand_ho i j < 1) ->
  let net := init n h k lr rand_ih rand_ho in
  params_shaped net n h k /\
  (forall i j, (i < n)%nat -> (j < h)%nat ->
     get (weights_input_to_hidden net) i j = 1 / 100 * rand_ih i j /\
     0 <= get (weights_input_to_hidden net) i j < 1 / 100) /\
  (forall i j, (i < h)%nat -> (j < k)%nat ->
     get (weights_hidden_to_output net) i j = 1 / 100 * rand_ho i j /\
     0 <= get (weights_hidden_to_output net) i j < 1 / 100) /\
  (forall j, (j < h)%nat -> get (bias_hidden net) 0%nat j = 0) /\
  (forall j, (j < k)%nat -> get (bias_output net) 0%nat j = 0) /\
  learning_rate net = match lr with Some r => r | None => 1 / 100 end /\
  z_hidden net = None /\ a_hidden net = None /\
  z_output net = None /\ a_output net = None.
Proof.
  intros H1 H2. cbv zeta.
  split; [apply init_params_shaped|].
  unfold init, nd_map, np_zeros.
  cbn [weights_input_to_hidden weights_hidden_to_output bias_hidden
       bias_output learning_rate z_hidden a_hidden z_output a_output
       nrows ncols tabulate].
  split; [|split; [|split; [|split]]].
  - intros i j Hi Hj. fold (tabulate n h rand_ih).
    fold (tabulate n h (fun i j => fmul lit_0_01 (get (tabulate n h rand_ih) i j))).
    rewrite !get_tabulate by assumption. cbn [fmul lit_0_01 R_scalar].
    pose proof (H1 i j). split; [reflexivity | lra].
  - intros i j Hi Hj. fold (tabulate h k rand_ho).
    fold (tabulate h k (fun i j => fmul lit_0_01 (get (tabulate h k rand_ho) i j))).
    rewrite !get_tabulate by assumption. cbn [fmul lit_0_01 R_scalar].
    pose proof (H2 i j). split; [reflexivity | lra].
  - intros j Hj. fold (tabulate 1 h (fun _ _ => @f0 R R_scalar)).
    rewrite get_tabulate by lia. reflexivity.
  - intros j Hj. fold (tabulate 1 k (fun _ _ => @f0 R R_scalar)).
    rewrite get_tabulate by lia. reflexivity.
  - repeat split.
Qed.
End InitFacts.

Lemma init_gives_small_weights_witness :
  (forall i j : nat, (0 <= 1 / 2 < 1)%R) /\
  params_shaped (init 4 20 3 None (fun _ _ => (1 / 2)%R) (fun _ _ => (1 / 2)%R))
                4 20 3.
Proof.
  assert (H : forall i j : nat, (0 <= 1 / 2 < 1)%R) by (intros; lra).
  split; [exact H|].
  exact (proj1 (@init_gives_small_weights 4 20 3 None
                  (fun _ _ => (1 / 2)%R) (fun _ _ => (1 / 2)%R) H H)).
Defined.

(** ** Testing the network: labels and accuracy *)

Section TestFacts.
Context {F : Type} {SF : Scalar F}.

Lemma np_argmax_axis1_some (A : ndarray F) (m k : nat) :
  nrows A = m -> ncols A = k -> 0 < k ->
  exists idx, np_argmax_axis1 A = Some idx /\ length idx = m /\
              forall i, i < m -> nth i idx 0 = argmax_upto k (get A i).
Proof.
  intros Hm Hk Hpos. unfold np_argmax_axis1. rewrite Hm, Hk.
  destruct (Nat.eqb_spec k 0) as [H0|_]; [lia|].
  eexists. split; [reflexivity|].
  split; [rewrite length_map, length_seq; reflexivity|].
  intros i Hi.
  rewrite (nth_indep _ 0 (argmax_upto k (get A 0)))
    by (rewrite length_map, length_seq; exact Hi).
  rewrite (map_nth (fun i => argmax_upto k (get A i)) (seq 0 m) 0 i).
  rewrite seq_nth by exact Hi. reflexivity.
Qed.

Lemma np_equal_1d_same_length (a b : list nat) (m : nat) :
  length a = m -> length b = m ->
  np_equal_1d a b = Some (map (fun i => nth i a 0 =? nth i b 0) (seq 0 m)).
Proof.
  intros Ha Hb. unfold np_equal_1d. rewrite Ha, Hb, bdim_same. f_equal.
  apply map_ext_in. intros i Hi. apply in_seq in Hi.
  rewrite !bidx_lt by lia. reflexivity.
Qed.

Lemma count_true_le (l : list bool) : count_true l <= length l.
Proof. unfold count_true. apply filter_length_le. Qed.

Lemma count_true_all (l : list bool) :
  count_true l = length l <-> forall b, In b l -> b = true.
Proof.
  unfold count_true. induction l as [|b l IH]; simpl.
  - split; [intros _ b [] | reflexivity].
  - pose proof (filter_length_le (fun b => b) l) as Hle.
    destruct b; simpl.
    + split.
      * intros H c [<-|Hc]; [reflexivity|]. apply IH; [lia | exact Hc].
      * intros H. f_equal. apply IH. intros c Hc. apply H. right; exact Hc.
    + split; [lia|]. intros H. discriminate (H false (or_introl eq_refl)).
Qed.

Lemma bind_some (S A B : Type) (c : SE S A) (a : A) (k : A -> SE S B)
      (s s' : S) :
  c s = Some (a, s') -> bind c k s = k a s'.
Proof. intros Hc. unfold bind. rewrite Hc. reflexivity. Qed.

(** The test part of the cell on well-shaped data. *)
Lemma test_network_shaped (net : NeuralNetwork F) (tx ty : ndarray F)
      (m n h k : nat) :
  nrows tx = m -> ncols tx = n -> nrows ty = m -> ncols ty = k ->
  params_shaped net n h k -> 0 < k ->
  exists idx tl net',
    predict tx net = Some (idx, net') /\
    np_argmax_axis1 ty = Some tl /\
    length idx = m /\ length tl = m /\
    test_network tx ty net =
    Some (np_mean_bool (map (fun i => nth i idx 0 =? nth i tl 0) (seq 0 m)),
          net').
Proof.
  intros Hxm Hxn Hym Hyk Hp Hk.
  pose proof (@forward_values_shaped _ _ net tx m n h k Hxm Hxn Hp Hk) as Hv.
  cbv zeta in Hv.
  set (P := tabulate m k (output_act n h k tx (weights_input_to_hidden net)
              (bias_hidden net) (weights_hidden_to_output net)
              (bias_output net))) in *.
  destruct (@np_argmax_axis1_some P m k eq_refl eq_refl Hk)
    as (idx & Hidx & Hlen & _).
  destruct (@np_argmax_axis1_some ty m k Hym Hyk Hk) as (tl & Htl & Hlen' & _).
  exists idx, tl. eexists.
  split; [rewrite predict_run, Hv, Hidx; reflexivity|].
  split; [exact Htl|]. split; [exact Hlen|]. split; [exact Hlen'|].
  unfold test_network.
  erewrite bind_some; [|rewrite forward_run, Hv; reflexivity].
  rewrite (bind_lift _ _ Hidx), (bind_lift _ _ Htl).
  rewrite (bind_lift _ _ (np_equal_1d_same_length _ _ Hlen Hlen')).
  reflexivity.
Qed.
End TestFacts.

Section AccuracyFacts.
Local Open Scope R_scope.

(** In a one-hot row the first largest entry is the 1. *)
Lemma argmax_one_hot_row (Y : ndarray R) (m k i : nat) :
  one_hot Y m k -> (i < m)%nat ->
  let a := argmax_upto k (get Y i) in
  (a < k)%nat /\ get Y i a = 1 /\
  forall c, (c < k)%nat -> (get Y i c = 1 <-> c = a).
Proof.
  intros (_ & Hoh) Hi. cbv zeta.
  destruct (Hoh i Hi) as (t & Ht & H1 & H0).
  destruct (@argmax_upto_R k (get Y i) ltac:(lia)) as (Ha & Hmax & _).
  assert (Hat : argmax_upto k (get Y i) = t).
  { destruct (Nat.eq_dec (argmax_upto k (get Y i)) t) as [E|E]; [exact E|].
    pose proof (Hmax t Ht) as Hle. rewrite H1, (H0 _ Ha E) in Hle. lra. }
  rewrite Hat. split; [exact Ht|]. split; [exact H1|].
  intros c Hc. split.
  - intros Hc1. destruct (Nat.eq_dec c t) as [E|E]; [exact E|].
    rewrite (H0 c Hc E) in Hc1. lra.
  - intros ->. exact H1.
Qed.

Lemma argmax_one_hot_rows (Y : ndarray R) (m k : nat) (tl : list nat) :
  one_hot Y m k -> (0 < k)%nat -> np_argmax_axis1 Y = Some tl ->
  length tl = m /\
  forall i, (i < m)%nat ->
    (nth i tl 0 < k)%nat /\ get Y i (nth i tl 0%nat) = 1 /\
    forall c, (c < k)%nat -> (get Y i c = 1 <-> c = nth i tl 0%nat).
Proof.
  intros Hoh Hk Htl. pose proof Hoh as ((_ & Hm & Hkk) & _).
  destruct (@np_argmax_axis1_some R R_scalar Y m k Hm Hkk Hk)
    as (idx & Hidx & Hlen & Hnth).
  rewrite Htl in Hidx. inversion Hidx; subst idx.
  split; [exact Hlen|].
  intros i Hi. rewrite (Hnth i Hi).
  exact (@argmax_one_hot_row Y m k i Hoh Hi).
Qed.

Lemma predict_labels_lt (net net' : NeuralNetwork R) (tx : ndarray R)
      (m n h k : nat) (idx : list nat) :
  nrows tx = m -> ncols tx = n -> params_shaped net n h k -> (0 < k)%nat ->
  predict tx net = Some (idx, net') ->
  forall i, (i < m)%nat -> (nth i idx 0 < k)%nat.
Proof.
  intros Hxm Hxn Hp Hk. rewrite predict_run.
  rewrite (@forward_values_shaped R R_scalar net tx m n h k Hxm Hxn Hp Hk).
  destruct (@np_argmax_axis1_some R R_scalar
              (tabulate m k (output_act n h k tx (weights_input_to_hidden net)
                 (bias_hidden net) (weights_hidden_to_output net)
                 (bias_output net))) m k eq_refl eq_refl Hk)
    as (idx' & Hidx & _ & Hnth).
  rewrite Hidx. intros H. inversion H; subst.
  intros i Hi. rewrite (Hnth i Hi). apply argmax_upto_lt. exact Hk.
Qed.

(** X14: [np.argmax] along the rows of a one-hot matrix gives back the
    class of each row: the index it returns is the one, and the only one,
    that holds the 1. *)
Theorem argmax_decodes_one_hot (Y : ndarray R) (m k : nat) :
  one_hot Y m k -> (0 < k)%nat ->
  exists idx : list nat,
    np_argmax_axis1 Y = Some idx /\ length idx = m /\
    forall i, (i < m)%nat ->
      (nth i idx 0 < k)%nat /\ get Y i (nth i idx 0%nat) = 1 /\
      forall c, (c < k)%nat -> (get Y i c = 1 <-> c = nth i idx 0%nat).
Proof.
  intros Hoh Hk. pose proof Hoh as ((_ & Hm & Hkk) & _).
  destruct (@np_argmax_axis1_some R R_scalar Y m k Hm Hkk Hk)
    as (idx & Hidx & _).
  exists idx. split; [exact Hidx|].
  exact (@argmax_one_hot_rows Y m k idx Hoh Hk Hidx).
Qed.

Lemma accuracy_bounds (l : list bool) :
  l <> [] ->
  0 <= np_mean_bool l <= 1 /\
  (np_mean_bool l = 1 <-> forall b, In b l -> b = true).
Proof.
  intros Hne. unfold np_mean_bool. cbn [fdiv of_nat R_scalar].
  assert (Hlen : (0 < length l)%nat)
    by (destruct l; [contradiction | simpl; lia]).
  assert (HL : 0 < INR (length l)) by (apply lt_0_INR; exact Hlen).
  pose proof (count_true_le l) as Hle. apply le_INR in Hle.
  pose proof (pos_INR (count_true l)) as Hc0.
  split; [split|].
  - apply Rmult_le_reg_r with (INR (length l)); [exact HL|].
    unfold Rdiv. rewrite Rmult_assoc, Rinv_l by lra. lra.
  - apply Rmult_le_reg_r with (INR (length l)); [exact HL|].
    unfold Rdiv. rewrite Rmult_assoc, Rinv_l by lra. lra.
  - rewrite <- count_true_all. split.
    + intros H. apply INR_eq.
      apply (Rmult_eq_compat_r (INR (length l))) in H.
      unfold Rdiv in H. rewrite Rmult_assoc, Rinv_l in H by lra. lra.
    + intros ->. unfold Rdiv. apply Rinv_r. lra.
Qed.

(** X15: on a non-empty test set with one-hot labels the accuracy the
    cell computes lies in [0, 1], and it is 1 exactly when the class
    predicted for every row is the class its label marks. *)
Theorem accuracy_is_one_iff_all_correct
        (net : NeuralNetwork R) (tx ty : ndarray R) (m n h k : nat) :
  has_shape tx m n -> one_hot ty m k -> params_shaped net n h k ->
  (0 < k)%nat -> (0 < m)%nat ->
  exists (accuracy : R) (idx : list nat) (net' : NeuralNetwork R),
    predict tx net = Some (idx, net') /\
    test_network tx ty net = Some (accuracy, net') /\
    0 <= accuracy <= 1 /\
    (accuracy = 1 <-> forall i, (i < m)%nat -> get ty i (nth i idx 0%nat) = 1).
Proof.
  intros (_ & Hxm & Hxn) Hoh Hp Hk Hm.
  pose proof Hoh as ((_ & Hym & Hyk) & _).
  destruct (@test_network_shaped R R_scalar net tx ty m n h k
              Hxm Hxn Hym Hyk Hp Hk)
    as (idx & tl & net' & Hpred & Htl & Hlen & Hlen' & Htest).
  destruct (@argmax_one_hot_rows ty m k tl Hoh Hk Htl) as (_ & Hdec).
  eexists. exists idx, net'.
  split; [exact Hpred|]. split; [exact Htest|].
  set (same := map (fun i => (nth i idx 0 =? nth i tl 0)%nat) (seq 0 m)).
  assert (Hne : same <> []).
  { unfold same. destruct m as [|m']; [lia|]. simpl. discriminate. }
  destruct (accuracy_bounds Hne) as (Hb & Hone).
  split; [exact Hb|].
  rewrite Hone. unfold same. split.
  - intros Hall i Hi.
    assert (Heq : (nth i idx 0 =? nth i tl 0)%nat = true).
    { apply Hall. apply in_map_iff. exists i.
      split; [reflexivity | apply in_seq; lia]. }
    apply Nat.eqb_eq in Heq. rewrite Heq.
    exact (proj1 (proj2 (Hdec i Hi))).
  - intros Hall b Hb'. apply in_map_iff in Hb'.
    destruct Hb' as (i & <- & Hi). apply in_seq in Hi.
    apply Nat.eqb_eq.
    assert (Hik : (nth i idx 0 < k)%nat)
      by (apply (@predict_labels_lt net net' tx m n h k idx
                   Hxm Hxn Hp Hk Hpred); lia).
    apply (proj2 (proj2 (Hdec i ltac:(lia))) _ Hik).
    apply Hall. lia.
Qed.
End AccuracyFacts.

(** ** The whole cell *)

Section CellFacts.
Context {F : Type} {SF : Scalar F}.

Lemma range_step_5000 : range_step 5000 100 = map (fun q => q * 100) (seq 0 50).
Proof. unfold range_step. reflexivity. Qed.

(** X16: on data of the shapes of the Iris split (4 features, 3 classes,
    as many training labels as training rows and as many test labels as
    test rows, whatever these two numbers) the cell runs to its end without
    raising: the loss history has 5000 entries, the output of [train] is the
    50 lines for the epochs 0, 100, ..., 4900 with the losses of those
    epochs followed by the plot of the same 50 points, and an accuracy is
    computed. *)
Theorem notebook_main_runs
        (lr : F) (rand_ih rand_ho : nat -> nat -> F)
        (train_x train_y test_x test_y : ndarray F) (mt ms : nat) :
  has_shape train_x mt 4 -> has_shape train_y mt 3 ->
  has_shape test_x ms 4 -> has_shape test_y ms 3 ->
  exists (losses : list F) (out : list (event F)) (accuracy : F),
    notebook_main lr rand_ih rand_ho train_x train_y test_x test_y
    = Some (losses, out, accuracy) /\
    length losses = 5000 /\
    out = map (fun q => Print (q * 100) (nth (q * 100) losses f0)) (seq 0 50)
          ++ [Plot (map (fun q => q * 100) (seq 0 50))
                   (map (fun q => nth (q * 100) losses f0) (seq 0 50))].
Proof.
  intros (_ & H1 & H2) (_ & H3 & H4) (_ & H5 & H6) (_ & H7 & H8).
  pose proof (init_params_shaped 4 20 3 (Some lr) rand_ih rand_ho) as Hp.
  destruct (@epochs_run_shaped _ _ train_x train_y mt 4 20 3 H1 H2 H3 H4
              ltac:(lia) 5000 _ Hp)
    as (ls & n1 & Hrun & Hp1).
  destruct (@test_network_shaped _ _ n1 test_x test_y ms 4 20 3
              H5 H6 H7 H8 Hp1 ltac:(lia))
    as (idx & tl & n2 & _ & _ & _ & _ & Htest).
  pose proof (@epochs_run_length _ _ _ _ _ _ _ _ Hrun) as Hlen.
  exists ls. eexists. eexists.
  split.
  - unfold notebook_main. rewrite train_run, Hrun, Htest. reflexivity.
  - split; [exact Hlen|].
    unfold progress_lines.
    rewrite (slice_step_filter f0), Hlen.
    rewrite <- !range_step_filter by lia.
    rewrite range_step_5000, !map_map. reflexivity.
Qed.
End CellFacts.

Lemma argmax_decodes_one_hot_witness :
  one_hot ex_y 2 2 /\ 0 < 2 /\
  exists idx, np_argmax_axis1 ex_y = Some idx /\ length idx = 2.
Proof.
  split; [exact ex_y_one_hot|]. split; [exact Nat.lt_0_2|].
  destruct (@argmax_decodes_one_hot ex_y 2 2 ex_y_one_hot Nat.lt_0_2)
    as (idx & Hidx & Hlen & _).
  exists idx. split; [exact Hidx | exact Hlen].
Defined.

Lemma accuracy_is_one_iff_all_correct_witness :
  has_shape ex_x 2 2 /\ one_hot ex_y 2 2 /\ params_shaped ex_net 2 2 2 /\
  0 < 2 /\
  exists accuracy net',
    test_network ex_x ex_y ex_net = Some (accuracy, net') /\
    (0 <= accuracy <= 1)%R.
Proof.
  split; [exact ex_x_shape|]. split; [exact ex_y_one_hot|].
  split; [exact ex_net_shaped|]. split; [exact Nat.lt_0_2|].
  destruct (@accuracy_is_one_iff_all_correct ex_net ex_x ex_y 2 2 2 2
              ex_x_shape ex_y_one_hot ex_net_shaped Nat.lt_0_2 Nat.lt_0_2)
    as (acc & idx & net' & _ & Ht & Hb & _).
  exists acc, net'. split; [exact Ht | exact Hb].
Defined.

Lemma notebook_main_runs_witness :
  has_shape iris_train_x 2 4 /\ has_shape iris_train_y 2 3 /\
  has_shape iris_test_x 1 4 /\ has_shape iris_test_y 1 3 /\
  exists losses out accuracy,
    notebook_main (25 / 1000)%R (fun _ _ => (1 / 2)%R) (fun _ _ => (1 / 2)%R)
                  iris_train_x iris_train_y iris_test_x iris_test_y
    = Some (losses, out, accuracy) /\
    length losses = 5000.
Proof.
  assert (H1 : has_shape iris_train_x 2 4) by (repeat split; repeat constructor).
  assert (H2 : has_shape iris_train_y 2 3) by (repeat split; repeat constructor).
  assert (H3 : has_shape iris_test_x 1 4) by (repeat split; repeat constructor).
  assert (H4 : has_shape iris_test_y 1 3) by (repeat split; repeat constructor).
  split; [exact H1|]. split; [exact H2|]. split; [exact H3|].
  split; [exact H4|].
  destruct (@notebook_main_runs R R_scalar (25 / 1000)%R
              (fun _ _ => (1 / 2)%R) (fun _ _ => (1 / 2)%R)
              iris_train_x iris_train_y iris_test_x iris_test_y 2 1
              H1 H2 H3 H4)
    as (losses & out & acc & Hrun & Hlen & _).
  exists losses, out, acc. split; [exact Hrun | exact Hlen].
Defined.

(** ** Labels that do not fit the batch *)

Section LabelFacts.
Context {F : Type} {SF : Scalar F}.

Lemma bdim_mismatch (a b : nat) : a <> b -> a <> 1 -> b <> 1 -> bdim a b = None.
Proof.
  intros Hab Ha Hb. unfold bdim.
  destruct (Nat.eqb_spec a b); [contradiction|].
  destruct (Nat.eqb_spec a 1); [contradiction|].
  destruct (Nat.eqb_spec b 1); [contradiction|]. reflexivity.
Qed.

Lemma broadcast2_rows_mismatch (f : F -> F -> F) (A B : ndarray F) :
  nrows A <> nrows B -> nrows A <> 1 -> nrows B <> 1 ->
  broadcast2 f A B = None.
Proof.
  intros H1 H2 H3. unfold broadcast2.
  rewrite (bdim_mismatch H1 H2 H3). reflexivity.
Qed.

(** X17: labels whose number of rows is neither that of the batch nor 1
    (for a batch of more than one row) make [compute_loss] and [backward]
    raise after a successful [forward]; a [train] of at least one epoch
    raises in its first epoch. *)
Theorem label_rows_mismatch_raises
        (net : NeuralNetwork F) (x y : ndarray F) (m n h k : nat) :
  has_shape x m n -> params_shaped net n h k -> 0 < k ->
  nrows y <> m -> nrows y <> 1 -> m <> 1 ->
  exists (y_pred : ndarray F) (net1 : NeuralNetwork F),
    forward x net = Some (y_pred, net1) /\
    compute_loss y y_pred = None /\
    backward x y net1 = None /\
    forall e, train x y (S e) net = None.
Proof.
  intros (_ & Hxm & Hxn) Hp Hk Hy Hy1 Hm1.
  pose proof (@forward_shaped _ _ net x m n h k Hxm Hxn Hp Hk) as Hf.
  eexists. eexists. split; [exact Hf|].
  assert (Hloss : compute_loss y
                    (tabulate m k (output_act n h k x
                       (weights_input_to_hidden net) (bias_hidden net)
                       (weights_hidden_to_output net) (bias_output net)))
                  = None).
  { unfold compute_loss.
    rewrite broadcast2_rows_mismatch by (simpl; congruence). reflexivity. }
  split; [exact Hloss|].
  split.
  - rewrite backward_run. unfold backward_body.
    erewrite bind_attr by (unfold after_forward; reflexivity).
    unfold bind at 1. unfold lift at 1.
    rewrite broadcast2_rows_mismatch by (simpl; congruence). reflexivity.
  - assert (He : epoch_result x y net = None)
      by (unfold epoch_result; rewrite Hf, Hloss; reflexivity).
    assert (Hrun : forall e, epochs_run x y (S e) net = None).
    { induction e as [|e IH].
      - simpl. rewrite He. reflexivity.
      - change (epochs_run x y (S (S e)) net)
          with (match epochs_run x y (S e) net with
                | None => None
                | Some (losses, net') =>
                    match epoch_result x y net' with
                    | None => None
                    | Some (loss, net'') => Some (losses ++ [loss], net'')
                    end
                end).
        rewrite IH. reflexivity. }
    intros e. rewrite train_run, Hrun. reflexivity.
Qed.
End LabelFacts.

Lemma label_rows_mismatch_raises_witness :
  has_shape ex_x 2 2 /\ params_shaped ex_net 2 2 2 /\
  nrows three_labels <> 2 /\
  train ex_x three_labels 5 ex_net = None.
Proof.
  assert (H3 : nrows three_labels <> 2) by (simpl; discriminate).
  assert (H1 : nrows three_labels <> 1) by (simpl; discriminate).
  assert (H2 : 2 <> 1) by discriminate.
  split; [exact ex_x_shape|]. split; [exact ex_net_shaped|].
  split; [exact H3|].
  destruct (@label_rows_mismatch_raises R R_scalar ex_net ex_x three_labels
              2 2 2 2 ex_x_shape ex_net_shaped Nat.lt_0_2 H3 H1 H2)
    as (yp & net1 & _ & _ & _ & Ht).
  exact (Ht 4).
Defined.

(** ** The loss of a batch without rows, in float64 *)

(** X18: in float64 [compute_loss] does not raise on a batch without rows:
    the sum over no entries is 0.0, and the method returns -0.0 / 0, which
    is NaN. *)
Theorem compute_loss_of_no_rows_is_nan
        (libm_exp libm_log : float64 -> float64)
        (Y P : ndarray float64) (k : nat) :
  let SF := float64_scalar libm_exp libm_log in
  nrows Y = 0 -> ncols Y = k -> nrows P = 0 -> ncols P = k ->
  compute_loss Y P = Some b64_nan.
Proof.
  intros SF HY HYk HP HPk.
  rewrite (@compute_loss_shaped float64 SF Y P 0 k HY HYk HP HPk).
  reflexivity.
Qed.

Lemma compute_loss_of_no_rows_is_nan_witness :
  nrows no_rows = 0 /\ ncols no_rows = 3 /\
  forall libm_exp libm_log : float64 -> float64,
    let SF := float64_scalar libm_exp libm_log in
    compute_loss no_rows no_rows = Some b64_nan.
Proof.
  split; [reflexivity|]. split; [reflexivity|].
  intros libm_exp libm_log.
  exact (@compute_loss_of_no_rows_is_nan libm_exp libm_log no_rows no_rows 3
           eq_refl eq_refl eq_refl eq_refl).
Defined.
